(** * Workspace discovery of Langium: file-system provider and workspace manager

    A shallow embedding of

    - [packages/langium/src/workspace/file-system-provider.ts]
      ([FileSystemNode], [FileSystemProvider], [NodeFileSystemProvider]) and
    - the workspace manager ([DefaultWorkspaceManager]: [initializeWorkspace],
      [traverseFolder], [includeNode] and the overridable hooks),

    followed by the properties of the traversal and of the initialization
    sequence.

    Conventions of the embedding.

    - A promise is its final state, an [Outcome]: resolved with a value,
      rejected with an error, or never settled.  An [async] function is a
      state transformer that returns the state it leaves behind together
      with the outcome ([Async]); [await] is the bind of that monad.
    - What lies outside the repository is a parameter: the URI type with
      [Utils.resolvePath] and [URI.parse] (vscode-uri), [fs.promises.readdir]
      and [fs.readFile] (Node), [path.extname] (Node), the document store, the
      document builder and the service registry (other parts of Langium).
    - The recursion of [traverseFolder] follows the directory structure and
      need not terminate (symbolic-link loops are not guarded against), so its
      embedding takes a recursion budget; a budget that runs out leaves the
      promise [Pending]. *)

From Stdlib Require Import String Ascii List Bool Arith Lia.
Import ListNotations.

Set Implicit Arguments.
Set Warnings "-register-all,-notation-for-abbreviation".

(* ================================================================== *)
(** * Part I: definitions                                              *)
(* ================================================================== *)

(** ** Promises and asynchronous functions *)

Inductive Outcome (E A : Type) : Type :=
| Resolved (a : A)
| Rejected (e : E)
| Pending.

Arguments Resolved {E A} a.
Arguments Rejected {E A} e.
Arguments Pending {E A}.

(** An asynchronous computation over a mutable state [St]: the state is kept
    whatever the outcome, as a thrown exception does not undo the pushes made
    before it. *)
Definition Async (E St A : Type) : Type := St -> St * Outcome E A.

Definition ret {E St A} (a : A) : Async E St A := fun st => (st, Resolved a).

Definition bind {E St A B} (m : Async E St A) (k : A -> Async E St B) : Async E St B :=
  fun st =>
    match m st with
    | (st', Resolved a) => k a st'
    | (st', Rejected e) => (st', Rejected e)
    | (st', Pending) => (st', Pending)
    end.

Notation "x <- m ;; k" := (bind m (fun x => k))
  (at level 61, m at next level, right associativity).
Notation "m ;;; k" := (bind m (fun _ => k))
  (at level 61, right associativity).

(** [for (const entry of content) { body }] with an [await] in the body: the
    iterations run one after the other, and the first one that does not
    resolve ends the loop. *)
Fixpoint forOf {E St A} (content : list A) (body : A -> Async E St unit) : Async E St unit :=
  match content with
  | [] => ret tt
  | entry :: rest => body entry ;;; forOf rest body
  end.

(** [Promise.all]: resolved with all the values, in the order of the promises,
    when all of them resolve; rejected as soon as one of them is rejected, with
    the error of the promise that is rejected first in time.  Which one that is
    is decided by the event loop: [race] stands for its choice among the
    errors of the rejected promises (the first argument is the first error in
    the order of the list, the second the others). *)
Fixpoint rejections {E A} (ps : list (Outcome E A)) : list E :=
  match ps with
  | [] => []
  | Rejected e :: ps' => e :: rejections ps'
  | _ :: ps' => rejections ps'
  end.

Fixpoint resolutions {E A} (ps : list (Outcome E A)) : option (list A) :=
  match ps with
  | [] => Some []
  | Resolved a :: ps' =>
      match resolutions ps' with
      | Some vs => Some (a :: vs)
      | None => None
      end
  | _ :: _ => None
  end.

Definition Promise_all {E A} (race : E -> list E -> E) (ps : list (Outcome E A))
  : Outcome E (list A) :=
  match rejections ps with
  | e :: es => Rejected (race e es)
  | [] =>
      match resolutions ps with
      | Some vs => Resolved vs
      | None => Pending
      end
  end.

(** ** Directory entries of Node ([fs.Dirent])

    [readdir] with [withFileTypes: true] yields one [Dirent] per name; its type
    is one of libuv's [UV_DIRENT_*] constants and [isFile()], [isDirectory()]
    compare it with [UV_DIRENT_FILE], [UV_DIRENT_DIR]. *)

Inductive DirentType : Type :=
| UV_DIRENT_UNKNOWN
| UV_DIRENT_FILE
| UV_DIRENT_DIR
| UV_DIRENT_LINK
| UV_DIRENT_FIFO
| UV_DIRENT_SOCKET
| UV_DIRENT_CHAR
| UV_DIRENT_BLOCK.

Record Dirent : Type := mkDirent {
  dirent_name : string;
  dirent_type : DirentType
}.

Definition Dirent_isFile (d : Dirent) : bool :=
  match dirent_type d with
  | UV_DIRENT_FILE => true
  | _ => false
  end.

Definition Dirent_isDirectory (d : Dirent) : bool :=
  match dirent_type d with
  | UV_DIRENT_DIR => true
  | _ => false
  end.

(** ** [FileSystemNode], [FileSystemFilter], [FileSystemProvider] *)

Section Interfaces.

Variable URI : Type.
Variable Error : Type.

(** The object built by [getFolderNodes] carries the raw [dirent] besides the
    four fields of the interface. *)
Record FileSystemNode : Type := mkNode {
  dirent : Dirent;
  isFile : bool;
  isDirectory : bool;
  name : string;
  container : URI
}.

Definition FileSystemFilter : Type := FileSystemNode -> bool.

Record FileSystemProvider : Type := mkProvider {
  readFile : URI -> Outcome Error string;
  readFileSync : URI -> Error + string;
  traverse : URI -> option FileSystemFilter -> Outcome Error (list URI)
}.

End Interfaces.

Arguments mkNode {URI} _ _ _ _ _.
Arguments mkProvider {URI Error} _ _ _.

(** ** [NodeFileSystemProvider] *)

Module NodeFileSystemProvider.

Section WithFileSystem.

Variable URI : Type.
Variable Error : Type.

(** [Utils.resolvePath(folderPath, name)] of vscode-uri. *)
Variable resolvePath : URI -> string -> URI.

(** [fs.promises.readdir(uri.fsPath, { withFileTypes: true })]: the entries
    of the directory, or the error the promise is rejected with. *)
Variable readdir : URI -> Error + list Dirent.

(** [fs.promises.readFile(uri.fsPath, 'utf-8')] and [fs.readFileSync]. *)
Variable fs_readFile : URI -> Error + string.

(** State of a traversal: the locations whose listing has been requested,
    oldest first, and whatever the collector accumulates. *)
Record Walk (S : Type) : Type := mkWalk {
  listed : list URI;
  collected : S
}.

Definition readFile (uri : URI) : Outcome Error string :=
  match fs_readFile uri with
  | inl e => Rejected e
  | inr text => Resolved text
  end.

Definition readFileSync (uri : URI) : Error + string := fs_readFile uri.

Definition getFolderNodes {S} (folderPath : URI)
  : Async Error (Walk S) (list (FileSystemNode URI)) :=
  fun st =>
    let st' := mkWalk (listed st ++ [folderPath]) (collected st) in
    match readdir folderPath with
    | inl e => (st', Rejected e)
    | inr dirents =>
        (st', Resolved (map (fun dirent =>
                               mkNode dirent
                                      (Dirent_isFile dirent)
                                      (Dirent_isDirectory dirent)
                                      (dirent_name dirent)
                                      folderPath) dirents))
    end.

(** [!filter || filter(entry)] *)
Definition passes (filter : option (FileSystemFilter URI)) (entry : FileSystemNode URI) : bool :=
  match filter with
  | None => true
  | Some f => f entry
  end.

(** The call of the collector, a synchronous statement. *)
Definition collect {S} (collector : URI -> S -> S) (uri : URI) : Async Error (Walk S) unit :=
  fun st => (mkWalk (listed st) (collector uri (collected st)), Resolved tt).

Fixpoint traverseFolder {S} (fuel : nat) (folderPath : URI)
         (filter : option (FileSystemFilter URI)) (collector : URI -> S -> S)
  : Async Error (Walk S) unit :=
  match fuel with
  | O => fun st => (st, Pending)
  | Datatypes.S fuel' =>
      content <- getFolderNodes folderPath ;;
      forOf content (fun entry =>
        if passes filter entry then
          let uri := resolvePath folderPath (name entry) in
          if isDirectory entry then
            traverseFolder fuel' uri filter collector
          else if isFile entry then
            collect collector uri
          else ret tt
        else ret tt)
  end.

(** One iteration of the loop of [traverseFolder], when the recursive
    calls have the budget [fuel']. *)
Definition visit {S} (fuel' : nat) (folderPath : URI)
           (filter : option (FileSystemFilter URI)) (collector : URI -> S -> S)
           (entry : FileSystemNode URI) : Async Error (Walk S) unit :=
  if passes filter entry then
    let uri := resolvePath folderPath (name entry) in
    if isDirectory entry then
      traverseFolder fuel' uri filter collector
    else if isFile entry then
      collect collector uri
    else ret tt
  else ret tt.

(** [uris.push(uri)] *)
Definition push (uri : URI) (uris : list URI) : list URI := uris ++ [uri].

(** The whole run of [traverse]: the final state and the outcome of the
    awaited [traverseFolder]. *)
Definition run (fuel : nat) (root : URI) (filter : option (FileSystemFilter URI))
  : Walk (list URI) * Outcome Error unit :=
  traverseFolder fuel root filter push (mkWalk [] []).

Definition traverse (fuel : nat) (root : URI) (filter : option (FileSystemFilter URI))
  : Outcome Error (list URI) :=
  match run fuel root filter with
  | (st, Resolved _) => Resolved (collected st)
  | (_, Rejected e) => Rejected e
  | (_, Pending) => Pending
  end.

Definition provider (fuel : nat) : FileSystemProvider URI Error :=
  mkProvider readFile readFileSync (traverse fuel).

(** The listings that a computation adds to the record: they all succeed,
    except that a rejected computation ends on the listing that failed, with
    the error of the rejection. *)
Definition succeeds (u : URI) : Prop := exists dirents, readdir u = inr dirents.

Definition Listings {A} (new : list URI) (o : Outcome Error A) : Prop :=
  match o with
  | Rejected e =>
      exists before x, new = before ++ [x] /\ Forall succeeds before /\ readdir x = inl e
  | _ => Forall succeeds new
  end.

Definition Tracked {S A} (m : Async Error (Walk S) A) : Prop :=
  forall st, exists new,
    listed (fst (m st)) = listed st ++ new /\ Listings new (snd (m st)).

End WithFileSystem.

End NodeFileSystemProvider.

(** ** Directory trees

    The shape of a directory hierarchy without links: what a directory
    contains, in the order the storage lists it. *)

Inductive SpecialType : Type :=
| SymbolicLink
| Fifo
| Socket
| CharacterDevice
| BlockDevice
| Unknown.

Inductive FsTree : Type :=
| File (n : string)
| Folder (n : string) (content : list FsTree)
| Special (n : string) (k : SpecialType).

Definition typeOfSpecial (k : SpecialType) : DirentType :=
  match k with
  | SymbolicLink => UV_DIRENT_LINK
  | Fifo => UV_DIRENT_FIFO
  | Socket => UV_DIRENT_SOCKET
  | CharacterDevice => UV_DIRENT_CHAR
  | BlockDevice => UV_DIRENT_BLOCK
  | Unknown => UV_DIRENT_UNKNOWN
  end.

Definition treeName (t : FsTree) : string :=
  match t with
  | File n => n
  | Folder n _ => n
  | Special n _ => n
  end.

(** The [Dirent] that [readdir] reports for a child. *)
Definition direntOf (t : FsTree) : Dirent :=
  match t with
  | File n => mkDirent n UV_DIRENT_FILE
  | Folder n _ => mkDirent n UV_DIRENT_DIR
  | Special n k => mkDirent n (typeOfSpecial k)
  end.

Fixpoint depth (t : FsTree) : nat :=
  match t with
  | Folder _ content => S (fold_right (fun c m => Nat.max (depth c) m) 0 content)
  | _ => 0
  end.

(** Budget that the traversal of a directory with this content needs. *)
Definition depthOfContent (content : list FsTree) : nat :=
  S (fold_right (fun c m => Nat.max (depth c) m) 0 content).

Section Trees.

Variable URI : Type.
Variable Error : Type.
Variable resolvePath : URI -> string -> URI.
Variable readdir : URI -> Error + list Dirent.

(** The entry that [getFolderNodes] builds for the child [t] of [d]. *)
Definition nodeOf (d : URI) (t : FsTree) : FileSystemNode URI :=
  mkNode (direntOf t)
         (Dirent_isFile (direntOf t))
         (Dirent_isDirectory (direntOf t))
         (dirent_name (direntOf t))
         d.

(** The file system below [d] has the shape [content]: listing [d] succeeds
    with the entries of [content], and so on below every folder. *)
Inductive Models : URI -> list FsTree -> Prop :=
| Models_intro (d : URI) (content : list FsTree) :
    readdir d = inr (map direntOf content) ->
    (forall n sub, In (Folder n sub) content -> Models (resolvePath d n) sub) ->
    Models d content.

(** Locations of the nodes of a tree that sits in directory [d]. *)
Fixpoint locations (d : URI) (t : FsTree) : list URI :=
  match t with
  | Folder n content =>
      resolvePath d n :: flat_map (locations (resolvePath d n)) content
  | File n => [resolvePath d n]
  | Special n _ => [resolvePath d n]
  end.

Definition locationsOfContent (d : URI) (content : list FsTree) : list URI :=
  d :: flat_map (locations d) content.

(** The locations of the files and of the folders of a tree. *)
Fixpoint fileLocations (d : URI) (t : FsTree) : list URI :=
  match t with
  | Folder n content => flat_map (fileLocations (resolvePath d n)) content
  | File n => [resolvePath d n]
  | Special _ _ => []
  end.

Fixpoint folderLocations (d : URI) (t : FsTree) : list URI :=
  match t with
  | Folder n content =>
      resolvePath d n :: flat_map (folderLocations (resolvePath d n)) content
  | _ => []
  end.

(** Depth-first pre-order, as the specification words it: the entries of a
    directory are taken in listing order; an entry that the filter rejects
    contributes nothing; an accepted file contributes its location; an
    accepted folder contributes, at its place, everything found below it. *)
Fixpoint preorderFiles (accept : FileSystemNode URI -> bool) (d : URI) (t : FsTree) : list URI :=
  if accept (nodeOf d t) then
    match t with
    | File n => [resolvePath d n]
    | Folder n content => flat_map (preorderFiles accept (resolvePath d n)) content
    | Special _ _ => []
    end
  else [].

(** The directories entered, in the same order: a folder, then the folders
    entered below it, before anything that follows it in its parent. *)
Fixpoint preorderFolders (accept : FileSystemNode URI -> bool) (d : URI) (t : FsTree) : list URI :=
  if accept (nodeOf d t) then
    match t with
    | Folder n content =>
        resolvePath d n :: flat_map (preorderFolders accept (resolvePath d n)) content
    | _ => []
    end
  else [].

(** A folder (with its content) that lies in or below the [content] of [d],
    everywhere behind folders that the filter accepts. *)
Inductive Entered (accept : FileSystemNode URI -> bool)
  : URI -> list FsTree -> URI -> list FsTree -> Prop :=
| Entered_here d content : Entered accept d content d content
| Entered_below d content n sub d' content' :
    In (Folder n sub) content ->
    accept (nodeOf d (Folder n sub)) = true ->
    Entered accept (resolvePath d n) sub d' content' ->
    Entered accept d content d' content'.

(** Reachability in the file system itself, read off [readdir]. *)
Inductive DirectoryUnder (root : URI) : URI -> Prop :=
| DirectoryUnder_root : DirectoryUnder root root
| DirectoryUnder_step d dirents e :
    DirectoryUnder root d ->
    readdir d = inr dirents ->
    In e dirents ->
    Dirent_isDirectory e = true ->
    DirectoryUnder root (resolvePath d (dirent_name e)).

Definition FileUnder (root u : URI) : Prop :=
  exists d dirents e,
    DirectoryUnder root d /\
    readdir d = inr dirents /\
    In e dirents /\
    Dirent_isFile e = true /\
    u = resolvePath d (dirent_name e).

End Trees.

(** ** The workspace manager *)

(** [WorkspaceFolder] of the language server protocol. *)
Record WorkspaceFolder : Type := mkWorkspaceFolder {
  uri : string;
  folderName : string
}.

Record LanguageMeta : Type := mkLanguageMeta {
  fileExtensions : list string
}.

Record LangiumServices : Type := mkLangiumServices {
  LanguageMetaData : LanguageMeta
}.

Record ServiceRegistry : Type := mkServiceRegistry {
  all : list LangiumServices
}.

Section ManagerInterfaces.

Variable URI : Type.
Variable Error : Type.
Variable LangiumDocument : Type.

(** State of the document store and of the builder, which are not part of
    this slice of the repository. *)
Variable Host : Type.

(** [getOrCreateDocument] may create the document, which reads the file
    synchronously and may throw. *)
Record LangiumDocuments : Type := mkLangiumDocuments {
  getOrCreateDocument : URI -> Host -> Host * (Error + LangiumDocument)
}.

Record DocumentBuilder : Type := mkDocumentBuilder {
  build : list LangiumDocument -> Host -> Host * Outcome Error unit
}.

(** The fields that the constructor of [DefaultWorkspaceManager] reads from
    the shared services. *)
Record LangiumSharedServices : Type := mkServices {
  serviceRegistry : ServiceRegistry;
  langiumDocuments : LangiumDocuments;
  documentBuilder : DocumentBuilder;
  fileSystemProvider : FileSystemProvider URI Error
}.

(** The protected methods that subclasses override.  A hook is given the
    collector and calls it as it likes before its promise settles: what
    matters to the caller is the documents it pushed, in order, the state it
    leaves and the outcome of its promise. *)
Record Methods : Type := mkMethods {
  this_loadAdditionalDocuments :
    list WorkspaceFolder -> Host -> (Host * list LangiumDocument) * Outcome Error unit;
  this_getRootFolder : WorkspaceFolder -> URI;
  this_includeNode : FileSystemNode URI -> list string -> bool
}.

(** The calls that [initializeWorkspace] itself makes to its collaborators. *)
Inductive Call : Type :=
| Call_traverse (root : URI)
| Call_getOrCreateDocument (uri : URI)
| Call_loadAdditionalDocuments (folders : list WorkspaceFolder)
| Call_build (documents : list LangiumDocument).

Record World : Type := mkWorld {
  host : Host;
  calls : list Call
}.

End ManagerInterfaces.

Arguments Call_traverse {URI LangiumDocument} root.
Arguments Call_getOrCreateDocument {URI LangiumDocument} uri.
Arguments Call_loadAdditionalDocuments {URI LangiumDocument} folders.
Arguments Call_build {URI LangiumDocument} documents.

Module DefaultWorkspaceManager.

Section WithServices.

Variable URI : Type.
Variable Error : Type.
Variable LangiumDocument : Type.
Variable Host : Type.

(** [URI.parse] of vscode-uri and [path.extname] of Node. *)
Variable URI_parse : string -> URI.
Variable extname : string -> string.

(** The choice of the event loop in [Promise.all]. *)
Variable race : Error -> list Error -> Error.

Variable services : LangiumSharedServices URI Error LangiumDocument Host.

Let W : Type := World URI LangiumDocument Host.
Let Task (A : Type) : Type := Async Error W A.

Definition record (c : Call URI LangiumDocument) (w : W) : W :=
  mkWorld (host w) (calls w ++ [c]).

Definition withHost (h : Host) (w : W) : W := mkWorld h (calls w).

(** [node.name.startsWith('.')] *)
Definition startsWith (s p : string) : bool := String.prefix p s.

(** [fileExtensions.includes(ext)] *)
Definition includes (l : list string) (x : string) : bool :=
  existsb (String.eqb x) l.

Definition includeNode (node : FileSystemNode URI) (fileExtensions : list string) : bool :=
  if startsWith (name node) "." then false
  else if isDirectory node then
    negb (String.eqb (name node) "node_modules") && negb (String.eqb (name node) "out")
  else if isFile node then
    includes fileExtensions (extname (name node))
  else false.

Definition getRootFolder (workspaceFolder : WorkspaceFolder) : URI :=
  URI_parse (uri workspaceFolder).

Definition loadAdditionalDocuments (_folders : list WorkspaceFolder)
  : Host -> (Host * list LangiumDocument) * Outcome Error unit :=
  fun h => ((h, []), Resolved tt).

(** The class as it stands, nothing overridden. *)
Definition methods : Methods URI Error LangiumDocument Host :=
  mkMethods loadAdditionalDocuments getRootFolder includeNode.

Section Instance.

Variable this : Methods URI Error LangiumDocument Host.

Definition traverseFolder (root : URI) (fileExtensions : list string)
  : Outcome Error (list URI) :=
  traverse (fileSystemProvider services) root
           (Some (fun node => this_includeNode this node fileExtensions)).

(** [rootFolders.map(e => this.traverseFolder(e, fileExtensions))]: the
    calls are made one after the other without waiting, each leaves a
    promise. *)
Definition startTraversals (rootFolders : list URI) (fileExtensions : list string)
  : W -> W * list (Outcome Error (list URI)) :=
  fun w =>
    (fold_left (fun w e => record (Call_traverse e) w) rootFolders w,
     map (fun e => traverseFolder e fileExtensions) rootFolders).

Definition await {A} (p : Outcome Error A) : Task A := fun w => (w, p).

Definition call_getOrCreateDocument (uri : URI) : Task LangiumDocument :=
  fun w =>
    let (h, r) := getOrCreateDocument (langiumDocuments services) uri (host w) in
    let w' := record (Call_getOrCreateDocument uri) (withHost h w) in
    match r with
    | inl e => (w', Rejected e)
    | inr document => (w', Resolved document)
    end.

(** [uris.map(uri => this.langiumDocuments.getOrCreateDocument(uri))] *)
Fixpoint mapDocuments (uris : list URI) : Task (list LangiumDocument) :=
  match uris with
  | [] => ret []
  | uri :: rest =>
      document <- call_getOrCreateDocument uri ;;
      documents <- mapDocuments rest ;;
      ret (document :: documents)
  end.

(** [documents.push(document)] *)
Definition collector (document : LangiumDocument) (documents : list LangiumDocument)
  : list LangiumDocument :=
  documents ++ [document].

(** [await this.loadAdditionalDocuments(folders, collector)]; yields the
    array [documents] as the hook leaves it. *)
Definition call_loadAdditionalDocuments (folders : list WorkspaceFolder)
           (documents : list LangiumDocument) : Task (list LangiumDocument) :=
  fun w =>
    let '((h, pushed), o) := this_loadAdditionalDocuments this folders (host w) in
    let w' := record (Call_loadAdditionalDocuments folders) (withHost h w) in
    let documents' := fold_left (fun ds d => collector d ds) pushed documents in
    match o with
    | Resolved _ => (w', Resolved documents')
    | Rejected e => (w', Rejected e)
    | Pending => (w', Pending)
    end.

Definition call_build (documents : list LangiumDocument) : Task unit :=
  fun w =>
    let (h, o) := build (documentBuilder services) documents (host w) in
    (record (Call_build documents) (withHost h w), o).

Definition initializeWorkspace (folders : list WorkspaceFolder) : Task unit :=
  fun w =>
    let fileExtensions :=
      flat_map (fun e => fileExtensions (LanguageMetaData e))
               (all (serviceRegistry services)) in
    let rootFolders := map (this_getRootFolder this) folders in
    let (w1, promises) := startTraversals rootFolders fileExtensions w in
    (uriss <- await (Promise_all race promises) ;;
     let uris := concat uriss in
     documents <- mapDocuments uris ;;
     documents <- call_loadAdditionalDocuments folders documents ;;
     call_build documents) w1.

End Instance.

(** The store is asked for the documents of [uris] one after the other, from
    the state [h] on, and answers with [documents], leaving the state [h']. *)
Inductive Created : Host -> list URI -> list LangiumDocument -> Host -> Prop :=
| Created_nil (h : Host) : Created h [] [] h
| Created_cons (h : Host) (uri : URI) (h1 : Host) (document : LangiumDocument)
               (uris : list URI) (documents : list LangiumDocument) (h' : Host) :
    getOrCreateDocument (langiumDocuments services) uri h = (h1, inr document) ->
    Created h1 uris documents h' ->
    Created h (uri :: uris) (document :: documents) h'.

(** The arguments of the [build] calls in a list of calls. *)
Fixpoint buildCalls (cs : list (Call URI LangiumDocument)) : list (list LangiumDocument) :=
  match cs with
  | [] => []
  | Call_build documents :: cs' => documents :: buildCalls cs'
  | _ :: cs' => buildCalls cs'
  end.

End WithServices.

End DefaultWorkspaceManager.

(** ** A concrete host: POSIX paths and a disk given as a tree

    Used to run the code on examples.  The location type of vscode-uri and
    the functions of Node are not part of the repository; on this host a
    location is the list of the segments of an absolute path, resolving a
    name appends it (the names that [readdir] reports contain no separator
    and are neither [.] nor [..]), and the disk is a tree that [readdir]
    looks the path up in. *)

Module Posix.

Definition Path : Type := list string.

Inductive Errno : Type := ENOENT | ENOTDIR | EACCES | EISDIR.

Definition resolvePath (folderPath : Path) (n : string) : Path := folderPath ++ [n].

Definition isEmpty (s : string) : bool :=
  match s with
  | EmptyString => true
  | _ => false
  end.

(** The segments of a path between its separators. *)
Fixpoint split (s : string) (segment : string) : list string :=
  match s with
  | EmptyString => if isEmpty segment then [] else [segment]
  | String c s' =>
      if Ascii.eqb c "/" then
        if isEmpty segment then split s' EmptyString
        else segment :: split s' EmptyString
      else split s' (segment ++ String c EmptyString)%string
  end.

Definition stripScheme (s : string) : string :=
  if String.prefix "file://" s then String.substring 7 (String.length s - 7) s else s.

(** [URI.parse] on a [file:] URI without authority, or on a bare path. *)
Definition URI_parse (s : string) : Path := split (stripScheme s) EmptyString.

Definition path_eqb (p q : Path) : bool :=
  if list_eq_dec string_dec p q then true else false.

(** The suffix of [s] that starts at its last dot. *)
Fixpoint fromLastDot (s : string) : option string :=
  match s with
  | EmptyString => None
  | String c s' =>
      match fromLastDot s' with
      | Some e => Some e
      | None => if Ascii.eqb c "." then Some s else None
      end
  end.

(** [path.extname] on a name without separator, after Node's documentation:
    from the last dot to the end; empty when there is no dot, when the only
    dot is the first character, and for [..]. *)
Definition extname (n : string) : string :=
  match n with
  | String "."%char rest =>
      match fromLastDot rest with
      | Some e => if String.eqb n ".." then EmptyString else e
      | None => EmptyString
      end
  | _ =>
      match fromLastDot n with
      | Some e => e
      | None => EmptyString
      end
  end.

Fixpoint findFolder (n : string) (content : list FsTree) : Errno + list FsTree :=
  match content with
  | [] => inl ENOENT
  | c :: rest =>
      if String.eqb (treeName c) n then
        match c with
        | Folder _ sub => inr sub
        | _ => inl ENOTDIR
        end
      else findFolder n rest
  end.

(** [readdir] on a disk whose root directory has the given content. *)
Fixpoint readdirOn (disk : list FsTree) (p : Path) : Errno + list Dirent :=
  match p with
  | [] => inr (map direntOf disk)
  | n :: p' =>
      match findFolder n disk with
      | inl e => inl e
      | inr sub => readdirOn sub p'
      end
  end.

(** The same disk with some directories that the process may not list. *)
Definition deny (locked : list Path) (readdir : Path -> Errno + list Dirent)
  : Path -> Errno + list Dirent :=
  fun p => if existsb (path_eqb p) locked then inl EACCES else readdir p.

Definition fs_readFile (_ : Path) : Errno + string := inl ENOENT.

(** A document store that knows a document by its location and remembers
    the locations it has created documents for, and a builder that accepts
    whatever it is given. *)
Definition Document : Type := Path.
Definition Store : Type := list Path.

Definition store : LangiumDocuments Path Errno Document Store :=
  mkLangiumDocuments
    (fun uri known =>
       (if existsb (path_eqb uri) known then known else known ++ [uri], inr uri)).

Definition builder : DocumentBuilder Errno Document Store :=
  mkDocumentBuilder (fun _ known => (known, Resolved tt)).

Definition registry (extensions : list string) : ServiceRegistry :=
  mkServiceRegistry [mkLangiumServices (mkLanguageMeta extensions)].

Definition race (e : Errno) (_ : list Errno) : Errno := e.

Definition services (readdir : Path -> Errno + list Dirent) (fuel : nat)
           (extensions : list string)
  : LangiumSharedServices Path Errno Document Store :=
  mkServices (registry extensions) store builder
             (NodeFileSystemProvider.provider resolvePath readdir fs_readFile fuel).

(** The default manager on this host. *)
Definition initializeWorkspace (readdir : Path -> Errno + list Dirent) (fuel : nat)
           (extensions : list string) (folders : list WorkspaceFolder)
  : World Path Document Store * Outcome Errno unit :=
  DefaultWorkspaceManager.initializeWorkspace
    race (services readdir fuel extensions)
    (@DefaultWorkspaceManager.methods Path Errno Document Store URI_parse extname)
    folders (mkWorld [] []).

(** The workspace of scenario A. *)
Definition contentA : list FsTree :=
  [File "a.lang";
   File "b.txt";
   Folder "sub" [File "c.lang"];
   Folder "node_modules" [File "d.lang"]].

Definition diskA : list FsTree := [Folder "ws" contentA].

Definition ws : WorkspaceFolder := mkWorkspaceFolder "file:///ws" "ws".

(** A disk with two workspaces and nodes of every kind. *)
Definition contentB : list FsTree :=
  [File "x.lang";
   Special "link" SymbolicLink;
   Folder ".git" [File "config.lang"];
   Folder "src" [File "y.lang"; Folder "deep" [File "z.lang"]; File ".hidden.lang"];
   File "w.lang"].

Definition diskB : list FsTree :=
  [Folder "ws1" contentB;
   Folder "ws2" [File "v.lang"; Special "pipe" Fifo]].

Definition ws1 : WorkspaceFolder := mkWorkspaceFolder "file:///ws1" "ws1".
Definition ws2 : WorkspaceFolder := mkWorkspaceFolder "file:///ws2" "ws2".

(** The store when the files at some locations cannot be read. *)
Definition storeWithout (missing : list Path) : LangiumDocuments Path Errno Document Store :=
  mkLangiumDocuments
    (fun uri known =>
       if existsb (path_eqb uri) missing then (known, inl ENOENT)
       else getOrCreateDocument store uri known).

(** The manager of a language that overrides [loadAdditionalDocuments]. *)
Definition methodsWith
           (hook : list WorkspaceFolder -> Store -> (Store * list Document) * Outcome Errno unit)
  : Methods Path Errno Document Store :=
  mkMethods hook
            (@DefaultWorkspaceManager.getRootFolder Path URI_parse)
            (@DefaultWorkspaceManager.includeNode Path extname).

(** A file system without bottom: every directory holds a directory. *)
Definition bottomless : Path -> Errno + list Dirent :=
  fun _ => inr [mkDirent "d" UV_DIRENT_DIR].

End Posix.

(** ** Notions used to state further properties *)

(** [l1] is [l2] with some elements left out, the others in their order. *)
Inductive Subseq {A : Type} : list A -> list A -> Prop :=
| Subseq_nil : Subseq [] []
| Subseq_skip (x : A) (l1 l2 : list A) : Subseq l1 l2 -> Subseq l1 (x :: l2)
| Subseq_keep (x : A) (l1 l2 : list A) : Subseq l1 l2 -> Subseq (x :: l1) (x :: l2).

(** A name under which the default filter lets the traversal enter a
    directory: no leading dot, neither [node_modules] nor [out]. *)
Definition searchable (n : string) : Prop :=
  (forall rest, n <> String "."%char rest) /\
  n <> "node_modules"%string /\
  n <> "out"%string.

(* ================================================================== *)
(** * Part II: properties                                              *)
(* ================================================================== *)

(** ** Lists *)

Section ListFacts.

Variable A : Type.

Lemma NoDup_app_l (l1 l2 : list A) : NoDup (l1 ++ l2) -> NoDup l1.
Proof.
  induction l1 as [| a l1 IH]; simpl; intros H; [constructor |].
  inversion H as [| ? ? Hn Hd]; subst. constructor.
  - intros Hin. apply Hn, in_or_app. now left.
  - now apply IH.
Qed.

Lemma NoDup_app_r (l1 l2 : list A) : NoDup (l1 ++ l2) -> NoDup l2.
Proof.
  induction l1 as [| a l1 IH]; simpl; intros H; [assumption |].
  inversion H; subst. now apply IH.
Qed.

Lemma NoDup_app_disjoint (l1 l2 : list A) (a : A) :
  NoDup (l1 ++ l2) -> In a l1 -> In a l2 -> False.
Proof.
  induction l1 as [| b l1 IH]; simpl; intros H H1 H2; [contradiction |].
  inversion H as [| ? ? Hn Hd]; subst. destruct H1 as [-> | H1].
  - apply Hn, in_or_app. now right.
  - now apply IH.
Qed.

Lemma NoDup_app_intro (l1 l2 : list A) :
  NoDup l1 -> NoDup l2 -> (forall a, In a l1 -> In a l2 -> False) -> NoDup (l1 ++ l2).
Proof.
  induction l1 as [| b l1 IH]; simpl; intros H1 H2 Hd; [assumption |].
  inversion H1 as [| ? ? Hn Hl1]; subst. constructor.
  - intros Hin. apply in_app_or in Hin as [Hin | Hin]; [now apply Hn |].
    apply (Hd b); [now left | assumption].
  - apply IH; try assumption. intros a Ha. apply Hd. now right.
Qed.

Lemma fold_left_push (l : list A) (acc : list A) :
  fold_left (fun s u => s ++ [u]) l acc = acc ++ l.
Proof.
  revert acc. induction l as [| a l IH]; simpl; intros acc.
  - now rewrite app_nil_r.
  - rewrite IH, <- app_assoc. reflexivity.
Qed.

End ListFacts.

Section FlatMapFacts.

Variables A B : Type.

Lemma flat_map_split (f : A -> list B) (l1 l2 : list A) (a : A) :
  flat_map f (l1 ++ a :: l2) = flat_map f l1 ++ f a ++ flat_map f l2.
Proof. now rewrite flat_map_app. Qed.

Lemma in_flat_map_incl (f : A -> list B) (l : list A) (a : A) :
  In a l -> incl (f a) (flat_map f l).
Proof. intros Ha b Hb. apply in_flat_map. eauto. Qed.

Lemma flat_map_incl (f g : A -> list B) (l : list A) :
  (forall a, In a l -> incl (f a) (g a)) -> incl (flat_map f l) (flat_map g l).
Proof.
  intros H b Hb. apply in_flat_map in Hb as (a & Ha & Hb).
  apply in_flat_map. exists a. split; [assumption | now apply (H a Ha)].
Qed.

(** Two different places of a duplicate-free concatenation share nothing. *)
Lemma NoDup_flat_map_apart (f : A -> list B) (l1 l2 : list A) (a c : A) (b : B) :
  NoDup (flat_map f (l1 ++ a :: l2)) ->
  In c (l1 ++ l2) -> In b (f c) -> In b (f a) -> False.
Proof.
  rewrite flat_map_split. intros Hnd Hc Hbc Hba.
  apply in_app_or in Hc as [Hc | Hc].
  - apply (NoDup_app_disjoint _ _ b Hnd).
    + apply (in_flat_map_incl f l1 c Hc), Hbc.
    + apply in_or_app. now left.
  - apply NoDup_app_r in Hnd. apply (NoDup_app_disjoint _ _ b Hnd Hba).
    apply (in_flat_map_incl f l2 c Hc), Hbc.
Qed.

(** Parts taken place by place from the parts of a duplicate-free
    concatenation are duplicate-free. *)
Lemma NoDup_flat_map_within (f g : A -> list B) (l : list A) :
  (forall a, In a l -> incl (f a) (g a)) ->
  (forall a, In a l -> NoDup (g a) -> NoDup (f a)) ->
  NoDup (flat_map g l) -> NoDup (flat_map f l).
Proof.
  induction l as [| a l IH]; simpl; intros Hincl Hnd H; [constructor |].
  apply NoDup_app_intro.
  - apply Hnd; [now left | now apply NoDup_app_l in H].
  - apply IH.
    + intros c Hc. apply Hincl. now right.
    + intros c Hc. apply Hnd. now right.
    + now apply NoDup_app_r in H.
  - intros b Hb1 Hb2. apply (NoDup_app_disjoint _ _ b H).
    + apply (Hincl a); [now left | assumption].
    + revert Hb2. apply flat_map_incl. intros c Hc. apply Hincl. now right.
Qed.

Lemma flat_map_ext_within (f g : A -> list B) (l : list A) :
  (forall a, In a l -> f a = g a) -> flat_map f l = flat_map g l.
Proof.
  induction l as [| a l IH]; simpl; intros H; [reflexivity |].
  rewrite (H a) by now left. rewrite IH; [reflexivity |].
  intros c Hc. apply H. now right.
Qed.

(** Two selections from the parts of a duplicate-free concatenation that are
    disjoint inside every part are disjoint. *)
Lemma flat_map_apart (f g h : A -> list B) (l : list A) :
  (forall a, In a l -> incl (f a) (h a)) ->
  (forall a, In a l -> incl (g a) (h a)) ->
  (forall a, In a l -> NoDup (h a) -> forall b, In b (f a) -> In b (g a) -> False) ->
  NoDup (flat_map h l) ->
  forall b, In b (flat_map f l) -> In b (flat_map g l) -> False.
Proof.
  induction l as [| a l IH]; simpl; intros Hf Hg Hloc Hnd b Hbf Hbg; [contradiction |].
  assert (Hfl : incl (flat_map f l) (flat_map h l)).
  { apply flat_map_incl. intros c Hc. apply Hf. now right. }
  assert (Hgl : incl (flat_map g l) (flat_map h l)).
  { apply flat_map_incl. intros c Hc. apply Hg. now right. }
  apply in_app_or in Hbf as [Hbf | Hbf]; apply in_app_or in Hbg as [Hbg | Hbg].
  - apply (Hloc a (or_introl eq_refl) (NoDup_app_l _ _ Hnd) b Hbf Hbg).
  - apply (NoDup_app_disjoint _ _ b Hnd); [apply (Hf a); [now left | assumption] | now apply Hgl].
  - apply (NoDup_app_disjoint _ _ b Hnd); [apply (Hg a); [now left | assumption] | now apply Hfl].
  - apply (IH (fun c Hc => Hf c (or_intror Hc)) (fun c Hc => Hg c (or_intror Hc))
              (fun c Hc => Hloc c (or_intror Hc)) (NoDup_app_r _ _ Hnd) b Hbf Hbg).
Qed.

End FlatMapFacts.

(** ** The asynchronous monad *)

Section AsyncFacts.

Variables E St : Type.


Lemma Promise_all_resolved (A : Type) (race : E -> list E -> E) (vs : list A) :
  Promise_all race (map (@Resolved E A) vs) = Resolved vs.
Proof.
  unfold Promise_all.
  assert (Hr : rejections (map (@Resolved E A) vs) = []) by (induction vs; simpl; auto).
  assert (Hv : resolutions (map (@Resolved E A) vs) = Some vs).
  { induction vs as [| v vs IH]; simpl; [reflexivity | now rewrite IH]. }
  now rewrite Hr, Hv.
Qed.

Lemma rejections_In (A : Type) (ps : list (Outcome E A)) (e : E) :
  In e (rejections ps) <-> In (Rejected e) ps.
Proof.
  induction ps as [| p ps IH]; simpl; [tauto |].
  destruct p as [a | e' |]; simpl; rewrite IH; split; intros H.
  - now right.
  - destruct H as [H | H]; [discriminate | assumption].
  - destruct H as [-> | H]; [now left | now right].
  - destruct H as [H | H]; [left; congruence | now right].
  - now right.
  - destruct H as [H | H]; [discriminate | assumption].
Qed.

End AsyncFacts.

(** ** Directory trees *)

Lemma FsTree_induction (P : FsTree -> Prop) :
  (forall n, P (File n)) ->
  (forall n content, Forall P content -> P (Folder n content)) ->
  (forall n k, P (Special n k)) ->
  forall t, P t.
Proof.
  intros HF HD HS. fix IH 1. intros [n | n content | n k].
  - apply HF.
  - apply HD. induction content as [| c content IHc]; constructor; [apply IH | exact IHc].
  - apply HS.
Qed.

Lemma isDirectory_direntOf (t : FsTree) :
  Dirent_isDirectory (direntOf t) = true -> exists n sub, t = Folder n sub.
Proof.
  destruct t as [n | n sub | n k]; cbn; intros H; try discriminate; eauto.
  destruct k; discriminate.
Qed.

Lemma isFile_direntOf (t : FsTree) :
  Dirent_isFile (direntOf t) = true -> exists n, t = File n.
Proof.
  destruct t as [n | n sub | n k]; cbn; intros H; try discriminate; eauto.
  destruct k; discriminate.
Qed.

Section TreeFacts.

Variable URI : Type.
Variable resolvePath : URI -> string -> URI.

Lemma fileLocations_incl (t : FsTree) :
  forall d, incl (fileLocations resolvePath d t) (locations resolvePath d t).
Proof.
  induction t as [n | n content IH | n k] using FsTree_induction; intros d; cbn.
  - apply incl_refl.
  - apply incl_tl, flat_map_incl. intros c Hc.
    rewrite Forall_forall in IH. now apply IH.
  - intros u [].
Qed.

Lemma folderLocations_incl (t : FsTree) :
  forall d, incl (folderLocations resolvePath d t) (locations resolvePath d t).
Proof.
  induction t as [n | n content IH | n k] using FsTree_induction; intros d; cbn.
  - intros u [].
  - apply incl_cons; [now left |].
    apply incl_tl, flat_map_incl. intros c Hc.
    rewrite Forall_forall in IH. now apply IH.
  - intros u [].
Qed.

Lemma preorderFiles_incl (accept : FileSystemNode URI -> bool) (t : FsTree) :
  forall d, incl (preorderFiles resolvePath accept d t) (fileLocations resolvePath d t).
Proof.
  induction t as [n | n content IH | n k] using FsTree_induction; intros d; cbn;
    destruct (accept _); try apply incl_refl; try apply incl_nil_l.
  apply flat_map_incl. intros c Hc. rewrite Forall_forall in IH. now apply IH.
Qed.

Lemma preorderFolders_incl (accept : FileSystemNode URI -> bool) (t : FsTree) :
  forall d, incl (preorderFolders resolvePath accept d t) (folderLocations resolvePath d t).
Proof.
  induction t as [n | n content IH | n k] using FsTree_induction; intros d; cbn;
    destruct (accept _); try apply incl_refl; try apply incl_nil_l.
  apply incl_cons; [now left |].
  apply incl_tl, flat_map_incl. intros c Hc. rewrite Forall_forall in IH. now apply IH.
Qed.

Lemma preorderFiles_all (t : FsTree) :
  forall d, preorderFiles resolvePath (fun _ => true) d t = fileLocations resolvePath d t.
Proof.
  induction t as [n | n content IH | n k] using FsTree_induction; intros d; cbn;
    try reflexivity.
  apply flat_map_ext_within. intros c Hc. rewrite Forall_forall in IH. now apply IH.
Qed.

Lemma preorderFolders_all (t : FsTree) :
  forall d, preorderFolders resolvePath (fun _ => true) d t = folderLocations resolvePath d t.
Proof.
  induction t as [n | n content IH | n k] using FsTree_induction; intros d; cbn;
    try reflexivity.
  f_equal. apply flat_map_ext_within. intros c Hc. rewrite Forall_forall in IH. now apply IH.
Qed.

Lemma NoDup_fileLocations (t : FsTree) :
  forall d, NoDup (locations resolvePath d t) -> NoDup (fileLocations resolvePath d t).
Proof.
  induction t as [n | n content IH | n k] using FsTree_induction; intros d; cbn; intros H.
  - assumption.
  - inversion H as [| ? ? _ Hnd]; subst. rewrite Forall_forall in IH.
    revert Hnd. apply NoDup_flat_map_within.
    + intros c _. apply fileLocations_incl.
    + intros c Hc. now apply IH.
  - constructor.
Qed.

Lemma NoDup_folderLocations (t : FsTree) :
  forall d, NoDup (locations resolvePath d t) -> NoDup (folderLocations resolvePath d t).
Proof.
  induction t as [n | n content IH | n k] using FsTree_induction; intros d; cbn; intros H.
  - constructor.
  - inversion H as [| ? ? Hn Hnd]; subst. rewrite Forall_forall in IH. constructor.
    + intros Hin. apply Hn. revert Hin. apply flat_map_incl.
      intros c _. apply folderLocations_incl.
    + revert Hnd. apply NoDup_flat_map_within.
      * intros c _. apply folderLocations_incl.
      * intros c Hc. now apply IH.
  - constructor.
Qed.

(** In a tree with pairwise distinct locations no location is both that of a
    file and that of a folder. *)
Lemma files_folders_apart (t : FsTree) :
  forall d u,
    NoDup (locations resolvePath d t) ->
    In u (fileLocations resolvePath d t) ->
    In u (folderLocations resolvePath d t) -> False.
Proof.
  induction t as [n | n content IH | n k] using FsTree_induction; intros d u; cbn;
    intros Hnd Hf Hd; try contradiction.
  inversion Hnd as [| ? ? Hn Hnd']; subst. rewrite Forall_forall in IH.
  destruct Hd as [<- | Hd].
  - apply Hn. revert Hf. apply flat_map_incl. intros c _. apply fileLocations_incl.
  - revert Hnd' u Hf Hd. apply flat_map_apart.
    + intros c _. apply fileLocations_incl.
    + intros c _. apply folderLocations_incl.
    + intros c Hc Hc' u. now apply IH.
Qed.

End TreeFacts.

(** ** Traversal of a directory tree *)

Section TraversalFacts.

Variable URI : Type.
Variable Error : Type.
Variable resolvePath : URI -> string -> URI.
Variable readdir : URI -> Error + list Dirent.

Import NodeFileSystemProvider.

Local Notation traverseFolder := (traverseFolder resolvePath readdir).
Local Notation getFolderNodes := (getFolderNodes readdir).
Local Notation visit := (visit resolvePath readdir).

Lemma traverseFolder_S (S : Type) (fuel : nat) (d : URI)
      (filter : option (FileSystemFilter URI)) (collector : URI -> S -> S) :
  traverseFolder (Datatypes.S fuel) d filter collector =
  (content <- getFolderNodes d ;; forOf content (visit fuel d filter collector)).
Proof. reflexivity. Qed.

Lemma depth_le_content (c : FsTree) (content : list FsTree) :
  In c content -> Datatypes.S (depth c) <= depthOfContent content.
Proof.
  unfold depthOfContent. induction content as [| x content IH]; simpl; [contradiction |].
  intros [-> | H]; [lia | specialize (IH H); lia].
Qed.

Lemma getFolderNodes_Models (S : Type) (d : URI) (content : list FsTree) (st : Walk URI S) :
  Models resolvePath readdir d content ->
  getFolderNodes d st =
  (mkWalk (listed st ++ [d]) (collected st), Resolved (map (nodeOf d) content)).
Proof.
  intros H. inversion H as [? ? Hr _]; subst.
  unfold NodeFileSystemProvider.getFolderNodes. rewrite Hr, map_map. reflexivity.
Qed.

(** On a directory tree the traversal resolves as soon as its budget covers
    the depth of the tree; it has then listed the accepted folders and
    collected the accepted files, both in depth-first pre-order. *)
Lemma traverseFolder_Models (S : Type) (filter : option (FileSystemFilter URI))
      (collector : URI -> S -> S) (fuel : nat) :
  forall (d : URI) (content : list FsTree) (st : Walk URI S),
    Models resolvePath readdir d content ->
    depthOfContent content <= fuel ->
    traverseFolder fuel d filter collector st =
    (mkWalk (listed st ++ d :: flat_map (preorderFolders resolvePath (passes filter) d) content)
            (fold_left (fun s u => collector u s)
                       (flat_map (preorderFiles resolvePath (passes filter) d) content)
                       (collected st)),
     Resolved tt).
Proof.
  induction fuel as [| fuel IH]; intros d content st HM Hd.
  - unfold depthOfContent in Hd. lia.
  - rewrite traverseFolder_S. unfold bind at 1.
    rewrite (getFolderNodes_Models st HM).
    inversion HM as [? ? _ Hsub]; subst.
    assert (Hloop : forall cs (st : Walk URI S),
               incl cs content ->
               forOf (map (nodeOf d) cs) (visit fuel d filter collector) st =
               (mkWalk (listed st ++ flat_map (preorderFolders resolvePath (passes filter) d) cs)
                       (fold_left (fun s u => collector u s)
                                  (flat_map (preorderFiles resolvePath (passes filter) d) cs)
                                  (collected st)),
                Resolved tt)).
    { induction cs as [| c cs IHcs]; intros st' Hincl.
      - simpl. rewrite app_nil_r. destruct st'; reflexivity.
      - assert (Hc : In c content) by (apply Hincl; now left).
        assert (Hcs : incl cs content) by (intros x Hx; apply Hincl; now right).
        cbn [map forOf]. unfold bind at 1. unfold NodeFileSystemProvider.visit.
        cbn [flat_map]. rewrite fold_left_app.
        destruct c as [n | n sub | n k]; cbn [preorderFiles preorderFolders].
        + destruct (passes filter (nodeOf d (File n))) eqn:Hp.
          * cbn. rewrite IHcs by assumption. cbn. rewrite ?app_nil_r. reflexivity.
          * cbn. rewrite IHcs by assumption. reflexivity.
        + destruct (passes filter (nodeOf d (Folder n sub))) eqn:Hp.
          * cbn [nodeOf direntOf isDirectory Dirent_isDirectory dirent_type name dirent_name].
            rewrite (IH (resolvePath d n) sub st' (Hsub n sub Hc)).
            2:{ pose proof (depth_le_content _ _ Hc) as Hle. cbn in Hle.
                unfold depthOfContent in *. lia. }
            rewrite IHcs by assumption. cbn. rewrite <- app_assoc. reflexivity.
          * cbn. rewrite IHcs by assumption. reflexivity.
        + destruct (passes filter (nodeOf d (Special n k))) eqn:Hp.
          * destruct k; cbn; rewrite IHcs by assumption; reflexivity.
          * cbn. rewrite IHcs by assumption. reflexivity. }
    rewrite Hloop by apply incl_refl. cbn. rewrite <- app_assoc. reflexivity.
Qed.

Lemma run_Models (filter : option (FileSystemFilter URI)) (fuel : nat)
      (root : URI) (content : list FsTree) :
  Models resolvePath readdir root content ->
  depthOfContent content <= fuel ->
  run resolvePath readdir fuel root filter =
  (mkWalk (root :: flat_map (preorderFolders resolvePath (passes filter) root) content)
          (flat_map (preorderFiles resolvePath (passes filter) root) content),
   Resolved tt).
Proof.
  intros HM Hd. unfold run.
  rewrite (traverseFolder_Models filter (@push URI) (mkWalk [] []) HM Hd). cbn.
  unfold push. rewrite fold_left_push. reflexivity.
Qed.

Lemma traverse_Models (filter : option (FileSystemFilter URI)) (fuel : nat)
      (root : URI) (content : list FsTree) :
  Models resolvePath readdir root content ->
  depthOfContent content <= fuel ->
  traverse resolvePath readdir fuel root filter =
  Resolved (flat_map (preorderFiles resolvePath (passes filter) root) content).
Proof.
  intros HM Hd. unfold traverse. rewrite (run_Models filter HM Hd). reflexivity.
Qed.

(** *** Reachability in the file system and in its tree *)

Lemma DirectoryUnder_trans (a b c : URI) :
  DirectoryUnder resolvePath readdir a b ->
  DirectoryUnder resolvePath readdir b c ->
  DirectoryUnder resolvePath readdir a c.
Proof.
  intros Hab Hbc. induction Hbc as [| d dirents e _ IH Hr He Hd]; [assumption |].
  eapply DirectoryUnder_step; eassumption.
Qed.

Lemma FileUnder_below (a b u : URI) :
  DirectoryUnder resolvePath readdir a b ->
  FileUnder resolvePath readdir b u ->
  FileUnder resolvePath readdir a u.
Proof.
  intros Hab (d & dirents & e & Hd & Hr & He & Hf & ->).
  exists d, dirents, e. repeat split; try assumption.
  now apply DirectoryUnder_trans with (b := b).
Qed.

Lemma Models_child (d : URI) (content : list FsTree) (n : string) (sub : list FsTree) :
  Models resolvePath readdir d content ->
  In (Folder n sub) content ->
  DirectoryUnder resolvePath readdir d (resolvePath d n).
Proof.
  intros HM Hin. inversion HM as [? ? Hr _]; subst.
  apply DirectoryUnder_step with (dirents := map direntOf content)
                                 (e := direntOf (Folder n sub)).
  - apply DirectoryUnder_root.
  - assumption.
  - now apply in_map.
  - reflexivity.
Qed.

Lemma folderLocations_DirectoryUnder (d : URI) (content : list FsTree) :
  Models resolvePath readdir d content ->
  forall u, In u (flat_map (folderLocations resolvePath d) content) ->
            DirectoryUnder resolvePath readdir d u.
Proof.
  intros HM. pose proof HM as HM0.
  induction HM as [d content Hr Hsub IH]; intros u Hu.
  apply in_flat_map in Hu as (c & Hc & Hu).
  destruct c as [n | n sub | n k]; cbn in Hu; try contradiction.
  assert (Hstep : DirectoryUnder resolvePath readdir d (resolvePath d n))
    by (eapply Models_child; eassumption).
  destruct Hu as [<- | Hu]; [assumption |].
  apply DirectoryUnder_trans with (b := resolvePath d n); [assumption |].
  apply (IH n sub Hc (Hsub n sub Hc) u Hu).
Qed.

Lemma fileLocations_FileUnder (d : URI) (content : list FsTree) :
  Models resolvePath readdir d content ->
  forall u, In u (flat_map (fileLocations resolvePath d) content) ->
            FileUnder resolvePath readdir d u.
Proof.
  intros HM. pose proof HM as HM0.
  induction HM as [d content Hr Hsub IH]; intros u Hu.
  apply in_flat_map in Hu as (c & Hc & Hu).
  destruct c as [n | n sub | n k]; cbn in Hu; try contradiction.
  - destruct Hu as [<- | []].
    exists d, (map direntOf content), (direntOf (File n)).
    repeat split; try assumption; try reflexivity.
    + apply DirectoryUnder_root.
    + now apply in_map.
  - apply FileUnder_below with (b := resolvePath d n).
    + eapply Models_child; eassumption.
    + apply (IH n sub Hc (Hsub n sub Hc) u Hu).
Qed.

(** A directory reached through [readdir] is a folder of the tree, and its
    part of the file system is its part of the tree. *)
Lemma DirectoryUnder_Models (root : URI) (content : list FsTree) (d : URI) :
  Models resolvePath readdir root content ->
  DirectoryUnder resolvePath readdir root d ->
  exists cd,
    Models resolvePath readdir d cd /\
    incl (flat_map (fileLocations resolvePath d) cd)
         (flat_map (fileLocations resolvePath root) content) /\
    incl (flat_map (folderLocations resolvePath d) cd)
         (flat_map (folderLocations resolvePath root) content) /\
    (d = root \/ In d (flat_map (folderLocations resolvePath root) content)).
Proof.
  intros HM Hd. induction Hd as [| d dirents e Hd IH Hr He Hdir].
  - exists content. split; [assumption |]. split; [apply incl_refl |].
    split; [apply incl_refl | now left].
  - destruct IH as (cd & HMd & Hfiles & Hfolders & _).
    inversion HMd as [? ? Hr' Hsub]; subst.
    rewrite Hr in Hr'. injection Hr' as ->.
    apply in_map_iff in He as (c & <- & Hc).
    destruct (isDirectory_direntOf c Hdir) as (n & sub & ->). cbn.
    exists sub. split; [now apply Hsub |].
    split; [| split].
    + intros u Hu. apply Hfiles. apply (in_flat_map_incl _ _ _ Hc). exact Hu.
    + intros u Hu. apply Hfolders. apply (in_flat_map_incl _ _ _ Hc). now right.
    + right. apply Hfolders. apply (in_flat_map_incl _ _ _ Hc). now left.
Qed.


Lemma FileUnder_fileLocations (root : URI) (content : list FsTree) (u : URI) :
  Models resolvePath readdir root content ->
  FileUnder resolvePath readdir root u ->
  In u (flat_map (fileLocations resolvePath root) content).
Proof.
  intros HM (d & dirents & e & Hd & Hr & He & Hf & ->).
  destruct (DirectoryUnder_Models HM Hd) as (cd & HMd & Hfiles & _ & _).
  inversion HMd as [? ? Hr' _]; subst.
  rewrite Hr in Hr'. injection Hr' as ->.
  apply in_map_iff in He as (c & <- & Hc).
  destruct (isFile_direntOf c Hf) as (n & ->). cbn.
  apply Hfiles. apply (in_flat_map_incl _ _ _ Hc). now left.
Qed.

(** *** Folders of a tree and what lies below them *)

Lemma Entered_Models (accept : FileSystemNode URI -> bool)
      (d0 : URI) (c0 : list FsTree) (d : URI) (cd : list FsTree) :
  Entered resolvePath accept d0 c0 d cd ->
  Models resolvePath readdir d0 c0 ->
  Models resolvePath readdir d cd.
Proof.
  induction 1 as [| d0 c0 n sub d cd Hin _ _ IH]; intros HM; [assumption |].
  apply IH. inversion HM as [? ? _ Hsub]; subst. now apply Hsub.
Qed.

Lemma Entered_locations (accept : FileSystemNode URI -> bool)
      (d0 : URI) (c0 : list FsTree) (d : URI) (cd : list FsTree) :
  Entered resolvePath accept d0 c0 d cd ->
  incl (flat_map (locations resolvePath d) cd) (flat_map (locations resolvePath d0) c0).
Proof.
  induction 1 as [| d0 c0 n sub d cd Hin _ _ IH]; [apply incl_refl |].
  intros u Hu. apply (in_flat_map_incl _ _ _ Hin). cbn. right. now apply IH.
Qed.

(** What is found below an entered folder is one segment of what is found
    below the root. *)
Lemma Entered_segment (accept : FileSystemNode URI -> bool)
      (d0 : URI) (c0 : list FsTree) (d : URI) (cd : list FsTree) :
  Entered resolvePath accept d0 c0 d cd ->
  exists a b,
    flat_map (preorderFiles resolvePath accept d0) c0 =
    a ++ flat_map (preorderFiles resolvePath accept d) cd ++ b.
Proof.
  induction 1 as [d0 c0 | d0 c0 n sub d cd Hin Hacc _ IH].
  - exists [], []. now rewrite app_nil_r.
  - destruct IH as (a & b & IH).
    apply in_split in Hin as (l1 & l2 & ->). rewrite flat_map_split.
    cbn [preorderFiles]. rewrite Hacc, IH.
    exists (flat_map (preorderFiles resolvePath accept d0) l1 ++ a),
           (b ++ flat_map (preorderFiles resolvePath accept d0) l2).
    now rewrite <- !app_assoc.
Qed.

(** Nothing that a walk takes from the tree lies in or below a folder that
    the filter rejects.  [g] is what the walk takes from a node: the files it
    collects or the folders it lists. *)
Lemma pruned_apart (accept : FileSystemNode URI -> bool) (g : URI -> FsTree -> list URI) :
  (forall d t, incl (g d t) (locations resolvePath d t)) ->
  (forall d t, accept (nodeOf d t) = false -> g d t = []) ->
  (forall d n sub u, In u (g d (Folder n sub)) ->
                     u = resolvePath d n \/ In u (flat_map (g (resolvePath d n)) sub)) ->
  forall d0 c0 d cd,
    Entered resolvePath (fun _ => true) d0 c0 d cd ->
    forall n sub,
      In (Folder n sub) cd ->
      accept (nodeOf d (Folder n sub)) = false ->
      NoDup (flat_map (locations resolvePath d0) c0) ->
      forall u, In u (flat_map (g d0) c0) ->
                In u (locations resolvePath d (Folder n sub)) -> False.
Proof.
  intros Hincl Hrej Hfold d0 c0 d cd HE.
  induction HE as [d0 c0 | d0 c0 n1 sub1 d cd Hin1 _ HE IH];
    intros n sub Hin Hacc Hnd u Hu Hloc.
  - apply in_split in Hin as (l1 & l2 & ->).
    rewrite flat_map_split, (Hrej _ _ Hacc) in Hu. cbn in Hu.
    rewrite <- flat_map_app in Hu. apply in_flat_map in Hu as (c & Hc & Hu).
    apply NoDup_flat_map_apart with (f := locations resolvePath d0) (l1 := l1) (l2 := l2)
                                    (a := Folder n sub) (c := c) (b := u);
      [exact Hnd | exact Hc | apply Hincl; exact Hu | exact Hloc].
  - assert (Hbelow : In u (flat_map (locations resolvePath (resolvePath d0 n1)) sub1)).
    { apply (Entered_locations HE). apply (in_flat_map_incl _ _ _ Hin). exact Hloc. }
    apply in_split in Hin1 as (l1 & l2 & ->).
    assert (Hnd1 : NoDup (locations resolvePath d0 (Folder n1 sub1))).
    { rewrite flat_map_split in Hnd.
      apply NoDup_app_r in Hnd. now apply NoDup_app_l in Hnd. }
    rewrite flat_map_split in Hu.
    apply in_app_or in Hu as [Hu | Hu]; [| apply in_app_or in Hu as [Hu | Hu]].
    + apply in_flat_map in Hu as (c & Hc & Hu).
      apply NoDup_flat_map_apart with (f := locations resolvePath d0) (l1 := l1) (l2 := l2)
                                      (a := Folder n1 sub1) (c := c) (b := u);
        [exact Hnd | apply in_or_app; now left | apply Hincl; exact Hu | cbn; now right].
    + cbn in Hnd1. inversion Hnd1 as [| ? ? Hhead Htail]; subst.
      apply Hfold in Hu as [-> | Hu]; [contradiction |].
      apply (IH n sub Hin Hacc Htail u Hu Hloc).
    + apply in_flat_map in Hu as (c & Hc & Hu).
      apply NoDup_flat_map_apart with (f := locations resolvePath d0) (l1 := l1) (l2 := l2)
                                      (a := Folder n1 sub1) (c := c) (b := u);
        [exact Hnd | apply in_or_app; now right | apply Hincl; exact Hu | cbn; now right].
Qed.

(** C1.  On every directory tree (every folder can be listed, the locations
    of its nodes are pairwise distinct), [traverse] with the always-true
    filter resolves, for every recursion budget that covers the depth of the
    tree, with a list that holds exactly the locations of the files reachable
    from the root, each of them once, and no location of a directory. *)
Theorem traverse_always_true_collects_all_files
        (root : URI) (content : list FsTree) (fuel : nat) :
  Models resolvePath readdir root content ->
  NoDup (locationsOfContent resolvePath root content) ->
  depthOfContent content <= fuel ->
  exists uris,
    traverse resolvePath readdir fuel root (Some (fun _ => true)) = Resolved uris /\
    (forall u, In u uris <-> FileUnder resolvePath readdir root u) /\
    NoDup uris /\
    (forall u, In u uris -> ~ DirectoryUnder resolvePath readdir root u).
Proof.
  intros HM Hnd Hfuel.
  exists (flat_map (fileLocations resolvePath root) content).
  unfold locationsOfContent in Hnd. inversion Hnd as [| ? ? Hroot Hnd']; subst.
  assert (Hlocs : incl (flat_map (fileLocations resolvePath root) content)
                       (flat_map (locations resolvePath root) content)).
  { apply flat_map_incl. intros c _. apply fileLocations_incl. }
  split; [| split; [| split]].
  - rewrite (traverse_Models (Some (fun _ => true)) HM Hfuel). f_equal.
    apply flat_map_ext_within. intros c _.
    change (passes (Some (fun _ : FileSystemNode URI => true)))
      with (fun _ : FileSystemNode URI => true).
    apply preorderFiles_all.
  - intros u. split.
    + now apply fileLocations_FileUnder.
    + now apply FileUnder_fileLocations.
  - revert Hnd'. apply NoDup_flat_map_within.
    + intros c _. apply fileLocations_incl.
    + intros c _. apply NoDup_fileLocations.
  - intros u Hu Hdir.
    destruct (DirectoryUnder_Models HM Hdir) as (_ & _ & _ & _ & [-> | Hin]).
    + apply Hroot. now apply Hlocs.
    + clear Hdir. revert Hnd' u Hu Hin. apply flat_map_apart.
      * intros c _. apply fileLocations_incl.
      * intros c _. apply folderLocations_incl.
      * intros c _ Hc u. now apply files_folders_apart.
Qed.


(** C4.  On a directory tree, when the filter returns false for the entry of
    a folder, wherever that folder lies in the tree, the traversal does not
    descend into it: neither the folder nor any directory below it is ever
    listed, and no file below it appears in the result. *)
Theorem traverse_prunes_rejected_directory
        (root : URI) (content : list FsTree) (fuel : nat) (filter : FileSystemFilter URI)
        (d : URI) (cd : list FsTree) (n : string) (sub : list FsTree) :
  Models resolvePath readdir root content ->
  NoDup (locationsOfContent resolvePath root content) ->
  depthOfContent content <= fuel ->
  Entered resolvePath (fun _ => true) root content d cd ->
  In (Folder n sub) cd ->
  filter (nodeOf d (Folder n sub)) = false ->
  exists st uris,
    run resolvePath readdir fuel root (Some filter) = (st, Resolved tt) /\
    traverse resolvePath readdir fuel root (Some filter) = Resolved uris /\
    (forall u, DirectoryUnder resolvePath readdir (resolvePath d n) u ->
               ~ In u (listed st)) /\
    (forall u, FileUnder resolvePath readdir (resolvePath d n) u -> ~ In u uris).
Proof.
  intros HM Hnd Hfuel HE Hin Hrej.
  unfold locationsOfContent in Hnd. inversion Hnd as [| ? ? Hroot Hnd']; subst.
  assert (HMsub : Models resolvePath readdir (resolvePath d n) sub).
  { pose proof (Entered_Models HE HM) as HMd.
    inversion HMd as [? ? _ Hsub]; subst. now apply Hsub. }
  assert (Hbelow : incl (locations resolvePath d (Folder n sub))
                        (flat_map (locations resolvePath root) content)).
  { intros u Hu. apply (Entered_locations HE). now apply (in_flat_map_incl _ _ _ Hin). }
  eexists. eexists. split; [apply (run_Models (Some filter) HM Hfuel) |].
  split; [apply (traverse_Models (Some filter) HM Hfuel) |].
  cbn [listed collected]. split.
  - intros u Hu Hlisted.
    assert (Hloc : In u (locations resolvePath d (Folder n sub))).
    { destruct (DirectoryUnder_Models HMsub Hu) as (_ & _ & _ & _ & [-> | Hsubdir]).
      - now left.
      - right. revert Hsubdir. apply flat_map_incl.
        intros c _. apply folderLocations_incl. }
    destruct Hlisted as [<- | Hlisted]; [now apply Hroot, Hbelow |].
    apply (pruned_apart (passes (Some filter))
                        (preorderFolders resolvePath (passes (Some filter))))
      with (d0 := root) (c0 := content) (d := d) (cd := cd) (n := n) (sub := sub) (u := u);
      try assumption.
    + intros d' t u' Hu'. apply folderLocations_incl.
      now apply (preorderFolders_incl resolvePath (passes (Some filter))).
    + intros d' t Hacc. destruct t; cbn [preorderFolders]; now rewrite Hacc.
    + intros d' n' sub' u'. cbn [preorderFolders].
      destruct (passes (Some filter) _); [| contradiction].
      intros [<- | H]; [now left | now right].
  - intros u Hu Hfound.
    assert (Hloc : In u (locations resolvePath d (Folder n sub))).
    { right. apply (FileUnder_fileLocations HMsub) in Hu. revert Hu.
      apply flat_map_incl. intros c _. apply fileLocations_incl. }
    apply (pruned_apart (passes (Some filter))
                        (preorderFiles resolvePath (passes (Some filter))))
      with (d0 := root) (c0 := content) (d := d) (cd := cd) (n := n) (sub := sub) (u := u);
      try assumption.
    + intros d' t u' Hu'. apply fileLocations_incl.
      now apply (preorderFiles_incl resolvePath (passes (Some filter))).
    + intros d' t Hacc. destruct t; cbn [preorderFiles]; now rewrite Hacc.
    + intros d' n' sub' u'. cbn [preorderFiles].
      destruct (passes (Some filter) _); [| contradiction]. now right.
Qed.

(** C6.  On a directory tree and for every filter (or none), the list that
    [traverse] returns is the depth-first pre-order of the accepted files, the
    entries of each directory taken in the order of its listing.  So in every
    directory that the traversal enters, whatever is found for an entry
    (below it, when it is an accepted subdirectory) comes, as one block,
    before whatever is found for an entry listed after it. *)
Theorem traverse_preserves_listing_order
        (root : URI) (content : list FsTree) (fuel : nat)
        (filter : option (FileSystemFilter URI)) :
  Models resolvePath readdir root content ->
  depthOfContent content <= fuel ->
  exists uris,
    traverse resolvePath readdir fuel root filter = Resolved uris /\
    uris = flat_map (preorderFiles resolvePath (passes filter) root) content /\
    forall d cd before c1 between c2 after,
      Entered resolvePath (passes filter) root content d cd ->
      cd = before ++ c1 :: between ++ c2 :: after ->
      exists l1 l2 l3,
        uris = l1 ++ preorderFiles resolvePath (passes filter) d c1
                  ++ l2 ++ preorderFiles resolvePath (passes filter) d c2 ++ l3.
Proof.
  intros HM Hfuel. eexists. split; [apply (traverse_Models filter HM Hfuel) |].
  split; [reflexivity |].
  intros d cd before c1 between c2 after HE ->.
  destruct (Entered_segment HE) as (a & b & ->).
  rewrite flat_map_split, flat_map_split.
  exists (a ++ flat_map (preorderFiles resolvePath (passes filter) d) before),
         (flat_map (preorderFiles resolvePath (passes filter) d) between),
         (flat_map (preorderFiles resolvePath (passes filter) d) after ++ b).
  now rewrite <- !app_assoc.
Qed.

End TraversalFacts.

(** ** Listings and failures *)

Section ListingFacts.

Variable URI : Type.
Variable Error : Type.
Variable resolvePath : URI -> string -> URI.
Variable readdir : URI -> Error + list Dirent.

Import NodeFileSystemProvider.

Local Notation traverseFolder := (traverseFolder resolvePath readdir).
Local Notation getFolderNodes := (getFolderNodes readdir).
Local Notation visit := (visit resolvePath readdir).
Local Notation Tracked := (Tracked readdir).
Local Notation Listings := (Listings readdir).

Lemma Tracked_ret (S A : Type) (a : A) : Tracked (@ret Error (Walk URI S) A a).
Proof. intros st. exists []. cbn. rewrite app_nil_r. split; [reflexivity | constructor]. Qed.

Lemma Tracked_pending (S A : Type) :
  Tracked (fun st : Walk URI S => (st, @Pending Error A)).
Proof. intros st. exists []. cbn. rewrite app_nil_r. split; [reflexivity | constructor]. Qed.

Lemma Tracked_collect (S : Type) (collector : URI -> S -> S) (u : URI) :
  Tracked (@collect URI Error S collector u).
Proof. intros st. exists []. cbn. rewrite app_nil_r. split; [reflexivity | constructor]. Qed.

Lemma Tracked_getFolderNodes (S : Type) (d : URI) :
  Tracked (@NodeFileSystemProvider.getFolderNodes URI Error readdir S d).
Proof.
  intros st. exists [d]. unfold NodeFileSystemProvider.getFolderNodes.
  destruct (readdir d) as [e | dirents] eqn:Hr; cbn; (split; [reflexivity |]).
  - exists [], d. repeat split; [constructor | assumption].
  - constructor; [| constructor]. now exists dirents.
Qed.

Lemma Tracked_bind (S A B : Type) (m : Async Error (Walk URI S) A)
      (k : A -> Async Error (Walk URI S) B) :
  Tracked m -> (forall a, Tracked (k a)) -> Tracked (bind m k).
Proof.
  intros Hm Hk st. unfold bind. destruct (Hm st) as (new1 & Hl1 & HL1).
  destruct (m st) as [st1 [a | e |]]; cbn in *.
  - destruct (Hk a st1) as (new2 & Hl2 & HL2).
    exists (new1 ++ new2). rewrite Hl2, Hl1, app_assoc. split; [reflexivity |].
    destruct (snd (k a st1)) as [b | e |]; cbn in *.
    + apply Forall_app. now split.
    + destruct HL2 as (before & x & -> & Hb & Hx).
      exists (new1 ++ before), x. rewrite app_assoc. repeat split; try assumption.
      apply Forall_app. now split.
    + apply Forall_app. now split.
  - exists new1. now split.
  - exists new1. now split.
Qed.

Lemma Tracked_forOf (S A : Type) (content : list A)
      (body : A -> Async Error (Walk URI S) unit) :
  (forall a, Tracked (body a)) -> Tracked (forOf content body).
Proof.
  intros Hb. induction content as [| a content IH]; cbn.
  - apply Tracked_ret.
  - apply Tracked_bind; [apply Hb | intros _; exact IH].
Qed.

Lemma Tracked_traverseFolder (S : Type) (filter : option (FileSystemFilter URI))
      (collector : URI -> S -> S) (fuel : nat) :
  forall d, Tracked (traverseFolder fuel d filter collector).
Proof.
  induction fuel as [| fuel IH]; intros d.
  - apply Tracked_pending.
  - rewrite traverseFolder_S. apply Tracked_bind; [apply Tracked_getFolderNodes |].
    intros content. apply Tracked_forOf. intros entry.
    unfold NodeFileSystemProvider.visit.
    destruct (passes filter entry); [| apply Tracked_ret].
    destruct (isDirectory entry); [apply IH |].
    destruct (isFile entry); [apply Tracked_collect | apply Tracked_ret].
Qed.



(** A traversal that has asked for a listing that fails is rejected with the
    error of that listing. *)
Lemma traverse_rejects_failed_listing (fuel : nat) (root : URI)
      (filter : option (FileSystemFilter URI)) (x : URI) (e : Error) :
  In x (listed (fst (run resolvePath readdir fuel root filter))) ->
  readdir x = inl e ->
  traverse resolvePath readdir fuel root filter = Rejected e.
Proof.
  unfold traverse, run. intros Hx Hr.
  destruct (Tracked_traverseFolder filter (@push URI) fuel root (mkWalk [] []))
    as (new & Hl & HL).
  rewrite Hl in Hx. cbn in Hx.
  destruct (NodeFileSystemProvider.traverseFolder _ _ _ _ _ _ _) as [st' [[] | e' |]];
    cbn in *.
  - rewrite Forall_forall in HL. destruct (HL x Hx) as (l & Hl'). congruence.
  - destruct HL as (before & x' & -> & Hb & Hx').
    apply in_app_or in Hx as [Hx | [<- | []]].
    + rewrite Forall_forall in Hb. destruct (Hb x Hx) as (l & Hl'). congruence.
    + congruence.
  - rewrite Forall_forall in HL. destruct (HL x Hx) as (l & Hl'). congruence.
Qed.

(** Conversely, a rejected traversal has asked for a listing that failed with
    that error. *)
Lemma traverse_rejected_by_listing (fuel : nat) (root : URI)
      (filter : option (FileSystemFilter URI)) (e : Error) :
  traverse resolvePath readdir fuel root filter = Rejected e ->
  exists x, In x (listed (fst (run resolvePath readdir fuel root filter))) /\
            readdir x = inl e.
Proof.
  unfold traverse, run.
  destruct (Tracked_traverseFolder filter (@push URI) fuel root (mkWalk [] []))
    as (new & Hl & HL).
  rewrite Hl. cbn.
  destruct (NodeFileSystemProvider.traverseFolder _ _ _ _ _ _ _) as [st' [[] | e' |]];
    cbn in *; intros H; try discriminate.
  injection H as ->. destruct HL as (before & x & -> & _ & Hx).
  exists x. split; [apply in_or_app; right; now left | assumption].
Qed.

End ListingFacts.

(** ** Sequential and deterministic traversal *)

Section BudgetFacts.

Variable URI : Type.
Variable Error : Type.
Variable resolvePath : URI -> string -> URI.
Variable readdir : URI -> Error + list Dirent.

Import NodeFileSystemProvider.

Local Notation traverseFolder := (traverseFolder resolvePath readdir).
Local Notation visit := (visit resolvePath readdir).

(** A traversal that settles does not depend on the budget left over. *)
Lemma traverseFolder_more_fuel (S : Type) (filter : option (FileSystemFilter URI))
      (collector : URI -> S -> S) (fuel : nat) :
  forall d st fuel',
    snd (traverseFolder fuel d filter collector st) <> Pending ->
    fuel <= fuel' ->
    traverseFolder fuel' d filter collector st = traverseFolder fuel d filter collector st.
Proof.
  induction fuel as [| fuel IH]; intros d st fuel' Hsettled Hle.
  - cbn in Hsettled. congruence.
  - destruct fuel' as [| fuel']; [lia |]. apply le_S_n in Hle.
    rewrite !traverseFolder_S in *. unfold bind at 1 2. unfold bind at 1 in Hsettled.
    destruct (getFolderNodes readdir d st) as [st0 [content | e |]]; try reflexivity.
    revert st0 Hsettled. induction content as [| entry content IHc]; intros st0 Hsettled.
    + reflexivity.
    + cbn [forOf] in *. unfold bind in *.
      assert (Hentry : snd (visit fuel d filter collector entry st0) <> Pending ->
                       visit fuel' d filter collector entry st0 =
                       visit fuel d filter collector entry st0).
      { unfold NodeFileSystemProvider.visit.
        destruct (passes filter entry); [| reflexivity].
        destruct (isDirectory entry); [| reflexivity].
        intros H. now apply IH. }
      destruct (visit fuel d filter collector entry st0) as [st1 [[] | e |]] eqn:Hv.
      * rewrite Hentry by (cbn; congruence). now apply IHc.
      * rewrite Hentry by (cbn; congruence). reflexivity.
      * cbn in Hsettled. congruence.
Qed.

Lemma run_more_fuel (filter : option (FileSystemFilter URI)) (fuel fuel' : nat) (root : URI) :
  traverse resolvePath readdir fuel root filter <> Pending ->
  fuel <= fuel' ->
  run resolvePath readdir fuel' root filter = run resolvePath readdir fuel root filter.
Proof.
  unfold traverse, run. intros Hsettled Hle.
  apply traverseFolder_more_fuel; [| assumption].
  destruct (NodeFileSystemProvider.traverseFolder _ _ _ _ _ _ _) as [st [[] | e |]];
    cbn; congruence.
Qed.

End BudgetFacts.

Section TwoRuns.

Variable URI : Type.
Variable Error : Type.
Variable resolvePath : URI -> string -> URI.
Variables readdir1 readdir2 : URI -> Error + list Dirent.

Import NodeFileSystemProvider.




End TwoRuns.

(** ** Directory listings *)

Section FolderNodeFacts.

Variable URI : Type.
Variable Error : Type.
Variable resolvePath : URI -> string -> URI.
Variable readdir : URI -> Error + list Dirent.

Import NodeFileSystemProvider.

(** C7, as the code has it.  A listing has one entry for every [Dirent] that
    [readdir] reports, whatever its kind: nothing is left out.  Of the flags
    [isFile] and [isDirectory] of an entry at most one is true; [isFile] is
    true exactly for a plain file, [isDirectory] exactly for a directory, and
    an entry of any other kind (a symbolic link, a socket, a device) is in
    the list with both flags false.  It is the traversal that leaves such an
    entry out: its iteration does nothing. *)
Theorem getFolderNodes_flags (S : Type) (folderPath : URI) (st : Walk URI S)
        (dirents : list Dirent) :
  readdir folderPath = inr dirents ->
  exists nodes,
    snd (getFolderNodes readdir folderPath st) = Resolved nodes /\
    map (@dirent URI) nodes = dirents /\
    forall node, In node nodes ->
      isFile node && isDirectory node = false /\
      (isFile node = true <-> dirent_type (dirent node) = UV_DIRENT_FILE) /\
      (isDirectory node = true <-> dirent_type (dirent node) = UV_DIRENT_DIR) /\
      (isFile node = false ->
       isDirectory node = false ->
       forall fuel filter (collector : URI -> S -> S) st',
         visit resolvePath readdir fuel folderPath filter collector node st' =
         (st', Resolved tt)).
Proof.
  intros Hr. unfold getFolderNodes. rewrite Hr. cbn. eexists. split; [reflexivity |].
  split.
  - rewrite map_map. cbn. apply map_id.
  - intros node Hin. apply in_map_iff in Hin as (de & <- & _). cbn.
    unfold Dirent_isFile, Dirent_isDirectory.
    split; [| split; [| split]].
    + destruct (dirent_type de); reflexivity.
    + destruct (dirent_type de); split; intros; congruence.
    + destruct (dirent_type de); split; intros; congruence.
    + intros Hf Hd fuel filter collector st'. unfold visit. cbn.
      unfold Dirent_isFile, Dirent_isDirectory in *. rewrite Hf, Hd.
      now destruct (passes filter _).
Qed.

(** C8.  A listing asks [readdir] once, for the listed location and for
    nothing below it.  Every entry of the list it returns carries that
    location as its container, and the entries are, name by name, the
    entries that [readdir] reports for that location: on a directory tree,
    the children of the listed folder and nothing from further down. *)
Theorem getFolderNodes_immediate_children (S : Type) (folderPath : URI) (st : Walk URI S)
        (dirents : list Dirent) :
  readdir folderPath = inr dirents ->
  exists nodes,
    getFolderNodes readdir folderPath st =
    (mkWalk (listed st ++ [folderPath]) (collected st), Resolved nodes) /\
    (forall node, In node nodes -> container node = folderPath) /\
    map (@name URI) nodes = map dirent_name dirents /\
    (forall content, Models resolvePath readdir folderPath content ->
                     map (@name URI) nodes = map treeName content).
Proof.
  intros Hr. unfold getFolderNodes. rewrite Hr. eexists. split; [reflexivity |].
  split; [| split].
  - intros node Hin. apply in_map_iff in Hin as (de & <- & _). reflexivity.
  - rewrite map_map. reflexivity.
  - intros content HM. inversion HM as [? ? Hr' _]; subst.
    rewrite Hr in Hr'. injection Hr' as ->. rewrite !map_map.
    apply map_ext. intros []; reflexivity.
Qed.

End FolderNodeFacts.

(** ** Initialization of the workspace *)

Section ManagerFacts.

Variable URI : Type.
Variable Error : Type.
Variable LangiumDocument : Type.
Variable Host : Type.
Variable race : Error -> list Error -> Error.
Variable services : LangiumSharedServices URI Error LangiumDocument Host.
Variable this : Methods URI Error LangiumDocument Host.

Import DefaultWorkspaceManager.

Lemma buildCalls_app (cs1 cs2 : list (Call URI LangiumDocument)) :
  buildCalls (cs1 ++ cs2) = buildCalls cs1 ++ buildCalls cs2.
Proof.
  induction cs1 as [| c cs1 IH]; cbn; [reflexivity |].
  destruct c; cbn; now rewrite IH.
Qed.

Lemma buildCalls_traverse (roots : list URI) :
  buildCalls (map (@Call_traverse URI LangiumDocument) roots) = [].
Proof. induction roots; cbn; auto. Qed.

Lemma buildCalls_getOrCreateDocument (uris : list URI) :
  buildCalls (map (@Call_getOrCreateDocument URI LangiumDocument) uris) = [].
Proof. induction uris; cbn; auto. Qed.

Lemma startTraversals_world (roots : list URI) (exts : list string)
      (w : World URI LangiumDocument Host) :
  fst (startTraversals services this roots exts w) =
  mkWorld (host w) (calls w ++ map Call_traverse roots).
Proof.
  unfold startTraversals. cbn [fst]. revert w.
  induction roots as [| r roots IH]; intros w; cbn.
  - rewrite app_nil_r. now destruct w.
  - rewrite IH. cbn. now rewrite <- app_assoc.
Qed.

Lemma mapDocuments_Created (uris : list URI) :
  forall (w : World URI LangiumDocument Host) documents h',
    Created services (host w) uris documents h' ->
    mapDocuments services uris w =
    (mkWorld h' (calls w ++ map Call_getOrCreateDocument uris), Resolved documents).
Proof.
  induction uris as [| uri uris IH]; intros w documents h' HC; inversion HC; subst.
  - cbn. rewrite app_nil_r. now destruct w.
  - cbn [mapDocuments]. unfold bind at 1. unfold call_getOrCreateDocument at 1.
    match goal with H : getOrCreateDocument _ _ _ = _ |- _ => rewrite H end.
    unfold bind at 1. erewrite IH by (cbn; eassumption).
    cbn. now rewrite <- app_assoc.
Qed.

Lemma resolved_promises (folders : list WorkspaceFolder) (exts : list string)
      (uriss : list (list URI)) :
  Forall2 (fun wf uris =>
             traverseFolder services this (this_getRootFolder this wf) exts = Resolved uris)
          folders uriss ->
  map (fun e => traverseFolder services this e exts) (map (this_getRootFolder this) folders) =
  map (@Resolved Error (list URI)) uriss.
Proof. induction 1 as [| wf uris folders uriss H _ IH]; cbn; [reflexivity | now rewrite H, IH]. Qed.



End ManagerFacts.

(** ** Failures *)

Section FailureFacts.

Variable URI : Type.
Variable Error : Type.
Variable LangiumDocument : Type.
Variable Host : Type.
Variable resolvePath : URI -> string -> URI.
Variable readdir : URI -> Error + list Dirent.
Variable fs_readFile : URI -> Error + string.

(** Whatever the event loop does, [Promise.all] is rejected with the error of
    one of the rejected promises. *)
Variable race : Error -> list Error -> Error.
Hypothesis race_In : forall e es, In (race e es) (e :: es).

Variable registry : ServiceRegistry.
Variable store : LangiumDocuments URI Error LangiumDocument Host.
Variable builder : DocumentBuilder Error LangiumDocument Host.
Variable fuel : nat.
Variable this : Methods URI Error LangiumDocument Host.

Import DefaultWorkspaceManager.

Local Notation services :=
  (mkServices registry store builder
              (NodeFileSystemProvider.provider resolvePath readdir fs_readFile fuel)).
Local Notation filter :=
  (Some (fun node : FileSystemNode URI =>
           this_includeNode this node
             (flat_map (fun e => fileExtensions (LanguageMetaData e)) (all registry)))).
Local Notation root wf := (this_getRootFolder this wf).

Lemma initializeWorkspace_rejected (folders : list WorkspaceFolder) (h : Host)
      (e : Error) (es : list Error) :
  rejections (map (fun r => NodeFileSystemProvider.traverse resolvePath readdir fuel r filter)
                  (map (this_getRootFolder this) folders)) = e :: es ->
  initializeWorkspace race services this folders (mkWorld h []) =
  (mkWorld h (map Call_traverse (map (this_getRootFolder this) folders)),
   Rejected (race e es)).
Proof.
  intros Hrej. unfold initializeWorkspace.
  pose proof (startTraversals_world services this (map (this_getRootFolder this) folders)
                (flat_map (fun e => fileExtensions (LanguageMetaData e))
                          (all (serviceRegistry services)))
                (mkWorld h [])) as Hw.
  destruct (startTraversals _ _ _ _ _) as [w1 promises] eqn:Hstart.
  cbn [fst] in Hw. subst w1.
  unfold startTraversals in Hstart. injection Hstart as _ <-.
  unfold bind, await, Promise_all, traverseFolder. cbn [fileSystemProvider traverse
    NodeFileSystemProvider.provider serviceRegistry].
  rewrite Hrej. reflexivity.
Qed.

(** C3.  A traversal that asks for a listing that fails is rejected with the
    error of that listing, with this budget and with every larger one, and a
    rejected promise carries no list.  When this
    happens in the traversal of one of the workspace folders,
    [initializeWorkspace] is rejected with the error of a listing that failed
    in the traversal of one of the folders (that very error unless the
    traversal of another folder fails with a different one), after it has
    started the traversals and nothing else: [build] is not called. *)
Theorem failed_listing_rejects_initialization
        (folders : list WorkspaceFolder) (h : Host)
        (wf : WorkspaceFolder) (x : URI) (e : Error) :
  In wf folders ->
  In x (NodeFileSystemProvider.listed
          (fst (NodeFileSystemProvider.run resolvePath readdir fuel (root wf) filter))) ->
  readdir x = inl e ->
  (forall fuel', fuel <= fuel' ->
     NodeFileSystemProvider.traverse resolvePath readdir fuel' (root wf) filter
     = Rejected e) /\
  exists w' e',
    initializeWorkspace race services this folders (mkWorld h []) = (w', Rejected e') /\
    (exists wf' x',
        In wf' folders /\
        In x' (NodeFileSystemProvider.listed
                 (fst (NodeFileSystemProvider.run resolvePath readdir fuel (root wf') filter))) /\
        readdir x' = inl e') /\
    calls w' = map Call_traverse (map (this_getRootFolder this) folders) /\
    buildCalls (calls w') = [] /\
    ((forall wf' e'',
         In wf' folders ->
         NodeFileSystemProvider.traverse resolvePath readdir fuel (root wf') filter
         = Rejected e'' -> e'' = e) ->
     e' = e).
Proof.
  intros Hwf Hx Hr.
  pose proof (traverse_rejects_failed_listing _ _ _ _ _ _ Hx Hr) as Hrejected.
  split.
  { intros fuel' Hle. rewrite <- Hrejected.
    unfold NodeFileSystemProvider.traverse at 1 2.
    rewrite (@run_more_fuel URI Error resolvePath readdir filter fuel fuel');
      [reflexivity | | assumption].
    rewrite Hrejected. discriminate. }
  assert (Hin : In e (rejections
                        (map (fun r => NodeFileSystemProvider.traverse
                                         resolvePath readdir fuel r filter)
                             (map (this_getRootFolder this) folders)))).
  { apply rejections_In. rewrite <- Hrejected.
    apply in_map with (f := fun r => NodeFileSystemProvider.traverse
                                       resolvePath readdir fuel r filter).
    now apply in_map. }
  destruct (rejections _) as [| e0 es] eqn:Hrej; [contradiction |].
  assert (Hwinner : exists wf', In wf' folders /\
                      NodeFileSystemProvider.traverse resolvePath readdir fuel (root wf') filter
                      = Rejected (race e0 es)).
  { pose proof (race_In e0 es) as Hrace. rewrite <- Hrej in Hrace.
    apply rejections_In in Hrace. apply in_map_iff in Hrace as (r & Hr' & Hrin).
    apply in_map_iff in Hrin as (wf' & <- & Hwf'). eauto. }
  destruct Hwinner as (wf' & Hwf' & Hrejected').
  exists (mkWorld h (map Call_traverse (map (this_getRootFolder this) folders))),
         (race e0 es).
  split; [now apply initializeWorkspace_rejected |].
  split; [| split; [reflexivity | split]].
  - destruct (traverse_rejected_by_listing _ _ _ _ _ Hrejected') as (x' & Hx' & Hr').
    exists wf', x'. auto.
  - cbn [calls]. apply buildCalls_traverse.
  - intros Honly. now apply (Honly wf').
Qed.

End FailureFacts.

(** ** The default inclusion filter *)

Section IncludeNodeFacts.

Variable URI : Type.
Variable extname : string -> string.

Import DefaultWorkspaceManager.

Lemma startsWith_dot (s : string) :
  startsWith s "." = true <-> exists rest, s = String "."%char rest.
Proof.
  unfold startsWith. destruct s as [| c s].
  - cbn. split; [discriminate | intros (rest & H); discriminate].
  - change (String.prefix "." (String c s))
      with (if Ascii.ascii_dec "."%char c then String.prefix "" s else false).
    destruct (Ascii.ascii_dec "."%char c) as [<- | Hne].
    + split; [eauto | intros _; now destruct s].
    + split; [discriminate | intros (rest & H); congruence].
Qed.

Lemma includes_In (l : list string) (x : string) :
  includes l x = true <-> In x l.
Proof.
  unfold includes. rewrite existsb_exists. split.
  - intros (y & Hy & Heq). apply String.eqb_eq in Heq. now subst.
  - intros H. exists x. split; [assumption | apply String.eqb_refl].
Qed.

Lemma includeNode_hidden (node : FileSystemNode URI) (exts : list string) :
  startsWith (name node) "." = true -> includeNode extname node exts = false.
Proof. unfold includeNode. now intros ->. Qed.

Lemma includeNode_directory (node : FileSystemNode URI) (exts : list string) :
  isDirectory node = true ->
  (includeNode extname node exts = true <->
   startsWith (name node) "." = false /\
   name node <> "node_modules"%string /\ name node <> "out"%string).
Proof.
  intros Hd. unfold includeNode. rewrite Hd.
  destruct (startsWith (name node) ".").
  - split; [discriminate | intros (H & _); discriminate].
  - rewrite andb_true_iff, !negb_true_iff, !String.eqb_neq. tauto.
Qed.

Lemma includeNode_file (node : FileSystemNode URI) (exts : list string) :
  isFile node = true ->
  isDirectory node = false ->
  (includeNode extname node exts = true <->
   startsWith (name node) "." = false /\ In (extname (name node)) exts).
Proof.
  intros Hf Hd. unfold includeNode. rewrite Hd, Hf.
  destruct (startsWith (name node) ".").
  - split; [discriminate | intros (H & _); discriminate].
  - rewrite includes_In. tauto.
Qed.

Lemma includeNode_other (node : FileSystemNode URI) (exts : list string) :
  isFile node = false ->
  isDirectory node = false ->
  includeNode extname node exts = false.
Proof.
  intros Hf Hd. unfold includeNode. rewrite Hd, Hf. now destruct (startsWith _ _).
Qed.

End IncludeNodeFacts.

(** C5.  The default filter, whatever the recognized extensions: it includes
    the entry of a directory exactly when its name does not start with a dot
    and is neither [node_modules] nor [out]; when it includes the entry of a
    file, the extension of the file's name is a recognized one (and it
    includes it exactly when, besides, the name does not start with a dot).
    In scenario A, with [.lang] recognized, the traversal of [/ws] finds
    [/ws/a.lang] and [/ws/sub/c.lang] and nothing else, and initialization
    asks the store for these two documents and builds them. *)
Theorem includeNode_default_filter :
  (forall (URI : Type) (extname : string -> string)
          (node : FileSystemNode URI) (exts : list string),
      isDirectory node = true ->
      (DefaultWorkspaceManager.includeNode extname node exts = true <->
       DefaultWorkspaceManager.startsWith (name node) "." = false /\
       name node <> "node_modules"%string /\ name node <> "out"%string)) /\
  (forall (URI : Type) (extname : string -> string)
          (node : FileSystemNode URI) (exts : list string),
      isFile node = true ->
      isDirectory node = false ->
      (DefaultWorkspaceManager.includeNode extname node exts = true ->
       In (extname (name node)) exts) /\
      (DefaultWorkspaceManager.includeNode extname node exts = true <->
       DefaultWorkspaceManager.startsWith (name node) "." = false /\
       In (extname (name node)) exts)) /\
  (forall fuel : nat,
      2 <= fuel ->
      NodeFileSystemProvider.traverse
        Posix.resolvePath (Posix.readdirOn Posix.diskA) fuel ["ws"%string]
        (Some (fun node => DefaultWorkspaceManager.includeNode
                             Posix.extname node [".lang"%string]))
      = Resolved [["ws"; "a.lang"]; ["ws"; "sub"; "c.lang"]]%string /\
      Posix.initializeWorkspace (Posix.readdirOn Posix.diskA) fuel
                                [".lang"%string] [Posix.ws]
      = (mkWorld [["ws"; "a.lang"]; ["ws"; "sub"; "c.lang"]]%string
                 [Call_traverse ["ws"%string];
                  Call_getOrCreateDocument ["ws"; "a.lang"]%string;
                  Call_getOrCreateDocument ["ws"; "sub"; "c.lang"]%string;
                  Call_loadAdditionalDocuments [Posix.ws];
                  Call_build [["ws"; "a.lang"]; ["ws"; "sub"; "c.lang"]]%string],
         Resolved tt)).
Proof.
  split; [| split].
  - intros URI extname node exts. apply includeNode_directory.
  - intros URI extname node exts Hf Hd.
    pose proof (includeNode_file extname node exts Hf Hd) as H.
    split; [| exact H]. intros Hinc. now apply H.
  - intros [| [| fuel]] Hfuel; try lia. split; vm_compute; reflexivity.
Qed.

(** C9.  The default filter rejects every entry whose name starts with a
    dot, a file as well as a directory: the hidden file [.hidden.lang] is
    rejected although its extension [.lang] is a recognized one.  It also
    rejects every entry that is neither a file nor a directory. *)
Theorem includeNode_rejects_hidden_and_special :
  (forall (URI : Type) (extname : string -> string)
          (node : FileSystemNode URI) (exts : list string) (rest : string),
      name node = String "."%char rest ->
      DefaultWorkspaceManager.includeNode extname node exts = false) /\
  (forall (URI : Type) (extname : string -> string)
          (node : FileSystemNode URI) (exts : list string),
      isFile node = false ->
      isDirectory node = false ->
      DefaultWorkspaceManager.includeNode extname node exts = false) /\
  (isFile (nodeOf ["ws1"; "src"]%string (File ".hidden.lang")) = true /\
   In (Posix.extname ".hidden.lang") [".lang"%string] /\
   DefaultWorkspaceManager.includeNode
     Posix.extname (nodeOf ["ws1"; "src"]%string (File ".hidden.lang")) [".lang"%string]
   = false).
Proof.
  split; [| split].
  - intros URI extname node exts rest Hname. apply includeNode_hidden.
    apply startsWith_dot. eauto.
  - intros URI extname node exts. apply includeNode_other.
  - split; [reflexivity | split; [now left | reflexivity]].
Qed.

(** ** The properties at work on the example disks *)

Ltac models :=
  constructor;
  [ reflexivity
  | let n := fresh "n" in
    let sub := fresh "sub" in
    let H := fresh "H" in
    intros n sub H; cbn in H;
    repeat (destruct H as [H | H];
            [ first [ discriminate H
                    | injection H as ? ?; subst; models ]
            | ]);
    contradiction ].

Ltac distinct :=
  repeat (constructor; [cbn; intuition discriminate |]); constructor.

Open Scope string_scope.
Open Scope list_scope.

Lemma traverse_always_true_collects_all_files_witness :
  exists uris,
    NodeFileSystemProvider.traverse Posix.resolvePath (Posix.readdirOn Posix.diskA) 2
                                    ["ws"] (Some (fun _ => true)) = Resolved uris /\
    (forall u, In u uris <-> FileUnder Posix.resolvePath (Posix.readdirOn Posix.diskA) ["ws"] u) /\
    NoDup uris /\
    (forall u, In u uris ->
               ~ DirectoryUnder Posix.resolvePath (Posix.readdirOn Posix.diskA) ["ws"] u).
Proof.
  apply traverse_always_true_collects_all_files with (content := Posix.contentA).
  - models.
  - distinct.
  - apply le_n.
Defined.

Lemma traverse_prunes_rejected_directory_witness :
  exists st uris,
    NodeFileSystemProvider.run
      Posix.resolvePath (Posix.readdirOn Posix.diskA) 2 ["ws"]
      (Some (fun node => DefaultWorkspaceManager.includeNode Posix.extname node [".lang"]))
    = (st, Resolved tt) /\
    NodeFileSystemProvider.traverse
      Posix.resolvePath (Posix.readdirOn Posix.diskA) 2 ["ws"]
      (Some (fun node => DefaultWorkspaceManager.includeNode Posix.extname node [".lang"]))
    = Resolved uris /\
    (forall u, DirectoryUnder Posix.resolvePath (Posix.readdirOn Posix.diskA)
                              (Posix.resolvePath ["ws"] "node_modules") u ->
               ~ In u (NodeFileSystemProvider.listed st)) /\
    (forall u, FileUnder Posix.resolvePath (Posix.readdirOn Posix.diskA)
                         (Posix.resolvePath ["ws"] "node_modules") u ->
               ~ In u uris).
Proof.
  apply traverse_prunes_rejected_directory
    with (content := Posix.contentA) (cd := Posix.contentA) (sub := [File "d.lang"]).
  - models.
  - distinct.
  - apply le_n.
  - apply Entered_here.
  - cbn. tauto.
  - reflexivity.
Defined.

Lemma traverse_preserves_listing_order_witness :
  exists uris,
    NodeFileSystemProvider.traverse Posix.resolvePath (Posix.readdirOn Posix.diskB) 3
                                    ["ws1"] None = Resolved uris /\
    uris = flat_map (preorderFiles Posix.resolvePath (NodeFileSystemProvider.passes None)
                                   ["ws1"]) Posix.contentB /\
    forall d cd before c1 between c2 after,
      Entered Posix.resolvePath (NodeFileSystemProvider.passes None)
              ["ws1"] Posix.contentB d cd ->
      cd = before ++ c1 :: between ++ c2 :: after ->
      exists l1 l2 l3,
        uris = l1 ++ preorderFiles Posix.resolvePath (NodeFileSystemProvider.passes None) d c1
                  ++ l2
                  ++ preorderFiles Posix.resolvePath (NodeFileSystemProvider.passes None) d c2
                  ++ l3.
Proof.
  apply traverse_preserves_listing_order.
  - models.
  - apply le_n.
Defined.

Lemma getFolderNodes_flags_witness :
  exists nodes,
    snd (NodeFileSystemProvider.getFolderNodes
           (Posix.readdirOn Posix.diskB) ["ws1"]
           (NodeFileSystemProvider.mkWalk [] tt)) = Resolved nodes /\
    map (@dirent Posix.Path) nodes = map direntOf Posix.contentB /\
    forall node, In node nodes ->
      isFile node && isDirectory node = false /\
      (isFile node = true <-> dirent_type (dirent node) = UV_DIRENT_FILE) /\
      (isDirectory node = true <-> dirent_type (dirent node) = UV_DIRENT_DIR) /\
      (isFile node = false ->
       isDirectory node = false ->
       forall fuel filter (collector : Posix.Path -> unit -> unit) st',
         NodeFileSystemProvider.visit
           Posix.resolvePath (Posix.readdirOn Posix.diskB) fuel ["ws1"] filter collector
           node st'
         = (st', Resolved tt)).
Proof.
  apply getFolderNodes_flags. reflexivity.
Defined.

(** C7 as it is worded fails on a directory that holds a symbolic link: the
    listing keeps the entry of the link, and neither of its flags is true. *)
Lemma getFolderNodes_keeps_symbolic_link :
  exists nodes node,
    snd (NodeFileSystemProvider.getFolderNodes
           (Posix.readdirOn Posix.diskB) ["ws1"]
           (NodeFileSystemProvider.mkWalk [] tt)) = Resolved nodes /\
    In node nodes /\
    name node = "link" /\
    dirent_type (dirent node) = UV_DIRENT_LINK /\
    isFile node = false /\
    isDirectory node = false.
Proof.
  eexists. exists (nodeOf ["ws1"] (Special "link" SymbolicLink)).
  split; [reflexivity |]. cbn. tauto.
Qed.

Lemma getFolderNodes_immediate_children_witness :
  exists nodes,
    NodeFileSystemProvider.getFolderNodes
      (Posix.readdirOn Posix.diskB) ["ws1"] (NodeFileSystemProvider.mkWalk [] tt)
    = (NodeFileSystemProvider.mkWalk ([] ++ [["ws1"]]) tt, Resolved nodes) /\
    (forall node, In node nodes -> container node = ["ws1"]) /\
    map (@name Posix.Path) nodes = map dirent_name (map direntOf Posix.contentB) /\
    (forall content,
        Models Posix.resolvePath (Posix.readdirOn Posix.diskB) ["ws1"] content ->
        map (@name Posix.Path) nodes = map treeName content).
Proof.
  apply (getFolderNodes_immediate_children
           Posix.resolvePath (Posix.readdirOn Posix.diskB) ["ws1"]
           (NodeFileSystemProvider.mkWalk [] tt)).
  reflexivity.
Defined.



Lemma failed_listing_rejects_initialization_witness :
  NodeFileSystemProvider.traverse
    Posix.resolvePath (Posix.deny [["ws"; "sub"]] (Posix.readdirOn Posix.diskA)) 2 ["ws"]
    (Some (fun node => DefaultWorkspaceManager.includeNode Posix.extname node [".lang"]))
  = Rejected Posix.EACCES /\
  exists w',
    Posix.initializeWorkspace (Posix.deny [["ws"; "sub"]] (Posix.readdirOn Posix.diskA)) 2
                              [".lang"] [Posix.ws]
    = (w', Rejected Posix.EACCES) /\
    DefaultWorkspaceManager.buildCalls (calls w') = [].
Proof.
  destruct (@failed_listing_rejects_initialization
              Posix.Path Posix.Errno Posix.Document Posix.Store
              Posix.resolvePath
              (Posix.deny [["ws"; "sub"]] (Posix.readdirOn Posix.diskA))
              Posix.fs_readFile Posix.race
              (fun e es => or_introl eq_refl)
              (Posix.registry [".lang"]) Posix.store Posix.builder 2
              (@DefaultWorkspaceManager.methods
                 Posix.Path Posix.Errno Posix.Document Posix.Store
                 Posix.URI_parse Posix.extname)
              [Posix.ws] [] Posix.ws ["ws"; "sub"] Posix.EACCES
              (or_introl eq_refl)
              (or_intror (or_introl eq_refl))
              eq_refl)
    as (Htraverse & w' & e' & Hinit & _ & _ & Hbuild & Hsame).
  split; [exact (Htraverse 2 (le_n 2)) |].
  assert (He : e' = Posix.EACCES).
  { apply Hsame. intros wf' e'' [<- | []] Hrej. vm_compute in Hrej. congruence. }
  subst e'. exists w'. split; assumption.
Defined.

Lemma includeNode_default_filter_witness :
  NodeFileSystemProvider.traverse
    Posix.resolvePath (Posix.readdirOn Posix.diskA) 2 ["ws"]
    (Some (fun node => DefaultWorkspaceManager.includeNode Posix.extname node [".lang"]))
  = Resolved [["ws"; "a.lang"]; ["ws"; "sub"; "c.lang"]].
Proof.
  apply (proj1 (proj2 (proj2 includeNode_default_filter) 2 (le_n 2))).
Defined.

Lemma includeNode_rejects_hidden_and_special_witness :
  DefaultWorkspaceManager.includeNode
    Posix.extname (nodeOf ["ws1"] (Folder ".git" [File "config.lang"])) [".lang"]
  = false.
Proof.
  apply (proj1 includeNode_rejects_hidden_and_special
               Posix.Path Posix.extname
               (nodeOf ["ws1"] (Folder ".git" [File "config.lang"])) [".lang"] "git").
  reflexivity.
Defined.

(* ================================================================== *)
(** * Part III: further properties of the code                         *)
(* ================================================================== *)

(** ** The traversal on any file system *)

Section WalkFacts.

Variable URI : Type.
Variable Error : Type.
Variable resolvePath : URI -> string -> URI.
Variable readdir : URI -> Error + list Dirent.

Import NodeFileSystemProvider.

Local Notation traverseFolder := (traverseFolder resolvePath readdir).
Local Notation visit := (visit resolvePath readdir).

(** The filter matters only through its answers. *)
Lemma traverseFolder_filter_ext (S : Type) (collector : URI -> S -> S)
      (f g : option (FileSystemFilter URI)) (fuel : nat) :
  (forall entry, passes f entry = passes g entry) ->
  forall d st,
    traverseFolder fuel d f collector st = traverseFolder fuel d g collector st.
Proof.
  intros Hfg. induction fuel as [| fuel IH]; intros d st; [reflexivity |].
  rewrite !traverseFolder_S. unfold bind.
  destruct (getFolderNodes readdir d st) as [st0 [content | e |]]; try reflexivity.
  revert st0. induction content as [| entry content IHc]; intros st0; [reflexivity |].
  cbn [forOf]. unfold bind.
  assert (Hentry : visit fuel d f collector entry st0 = visit fuel d g collector entry st0).
  { unfold NodeFileSystemProvider.visit. rewrite Hfg.
    destruct (passes g entry); [| reflexivity].
    destruct (isDirectory entry); [apply IH | reflexivity]. }
  rewrite Hentry.
  destruct (visit fuel d g collector entry st0) as [st1 [[] | e |]]; try reflexivity.
  apply IHc.
Qed.

(** X1.  A traversal without a filter is the traversal with the filter that
    accepts everything: same listings, same outcome, same locations. *)
Theorem traverse_without_filter (fuel : nat) (root : URI) :
  run resolvePath readdir fuel root None =
  run resolvePath readdir fuel root (Some (fun _ => true)) /\
  traverse resolvePath readdir fuel root None =
  traverse resolvePath readdir fuel root (Some (fun _ => true)).
Proof.
  assert (Hrun : run resolvePath readdir fuel root None =
                 run resolvePath readdir fuel root (Some (fun _ => true))).
  { unfold run. apply traverseFolder_filter_ext. reflexivity. }
  split; [exact Hrun |]. unfold traverse. now rewrite Hrun.
Qed.

(** X2.  A directory in which nothing can be collected or entered (it is
    empty, or each of its entries is rejected by the filter or is neither a
    file nor a directory) is listed, nothing else is, and the traversal
    resolves with the empty list. *)
Theorem traverse_nothing_to_collect (fuel : nat) (root : URI)
        (filter : option (FileSystemFilter URI)) (dirents : list Dirent) :
  readdir root = inr dirents ->
  (forall de, In de dirents ->
      passes filter (mkNode de (Dirent_isFile de) (Dirent_isDirectory de)
                            (dirent_name de) root) = false \/
      (Dirent_isFile de = false /\ Dirent_isDirectory de = false)) ->
  1 <= fuel ->
  run resolvePath readdir fuel root filter = (mkWalk [root] [], Resolved tt) /\
  traverse resolvePath readdir fuel root filter = Resolved [].
Proof.
  intros Hr Hnone Hfuel.
  assert (Hrun : run resolvePath readdir fuel root filter = (mkWalk [root] [], Resolved tt)).
  { destruct fuel as [| fuel]; [lia |]. unfold run. rewrite traverseFolder_S.
    unfold bind at 1, getFolderNodes. rewrite Hr. cbn [listed collected app].
    clear Hr. induction dirents as [| de dirents IH]; [reflexivity |].
    cbn [map forOf]. unfold bind at 1.
    assert (Hskip : forall st : Walk URI (list URI),
               visit fuel root filter (@push URI)
                     (mkNode de (Dirent_isFile de) (Dirent_isDirectory de)
                             (dirent_name de) root) st = (st, Resolved tt)).
    { intros st. unfold NodeFileSystemProvider.visit.
      destruct (Hnone de (or_introl eq_refl)) as [-> | [Hf Hd]]; [reflexivity |].
      cbn [isFile isDirectory]. rewrite Hf, Hd. now destruct (passes filter _). }
    rewrite Hskip. apply IH. intros de' Hde'. apply Hnone. now right. }
  split; [exact Hrun |]. unfold traverse. now rewrite Hrun.
Qed.

(** X3.  The traversal stops at the first listing that fails: when it is
    rejected, the listing that failed with the error of the rejection is the
    last one it asked for and all the earlier ones succeeded; when it is not
    rejected, every listing it asked for succeeded. *)
Theorem traverse_fails_fast (fuel : nat) (root : URI)
        (filter : option (FileSystemFilter URI)) :
  match traverse resolvePath readdir fuel root filter with
  | Rejected e =>
      exists before x,
        listed (fst (run resolvePath readdir fuel root filter)) = before ++ [x] /\
        readdir x = inl e /\
        (forall y, In y before -> exists dirents, readdir y = inr dirents)
  | _ =>
      forall y, In y (listed (fst (run resolvePath readdir fuel root filter))) ->
                exists dirents, readdir y = inr dirents
  end.
Proof.
  unfold traverse, run.
  destruct (Tracked_traverseFolder resolvePath readdir filter (@push URI) fuel root
                                   (mkWalk [] []))
    as (new & Hl & HL).
  rewrite Hl. cbn [listed app].
  destruct (NodeFileSystemProvider.traverseFolder _ _ _ _ _ _ _) as [st' [[] | e |]];
    cbn [snd] in HL; cbn [Listings] in HL.
  - intros y Hy. rewrite Forall_forall in HL. now apply HL.
  - destruct HL as (before & x & -> & Hb & Hx). exists before, x.
    repeat split; try assumption. intros y Hy. rewrite Forall_forall in Hb. now apply Hb.
  - intros y Hy. rewrite Forall_forall in HL. now apply HL.
Qed.

(** The collector sees the locations that [traverse] gathers, one call for
    each, in their order. *)
Lemma traverseFolder_any_collector (S : Type) (collector : URI -> S -> S)
      (filter : option (FileSystemFilter URI)) (s0 : S) (fuel : nat) :
  forall (d : URI) (st : Walk URI S) (st' : Walk URI (list URI)),
    listed st = listed st' ->
    collected st = fold_left (fun s u => collector u s) (collected st') s0 ->
    snd (traverseFolder fuel d filter collector st) =
    snd (traverseFolder fuel d filter (@push URI) st') /\
    listed (fst (traverseFolder fuel d filter collector st)) =
    listed (fst (traverseFolder fuel d filter (@push URI) st')) /\
    collected (fst (traverseFolder fuel d filter collector st)) =
    fold_left (fun s u => collector u s)
              (collected (fst (traverseFolder fuel d filter (@push URI) st'))) s0.
Proof.
  induction fuel as [| fuel IH]; intros d st st' Hl Hc; [cbn; auto |].
  rewrite !traverseFolder_S. unfold bind, getFolderNodes. rewrite <- Hl.
  destruct (readdir d) as [e | dirents]; [cbn; auto |].
  generalize (map (fun dirent => mkNode dirent (Dirent_isFile dirent)
                                        (Dirent_isDirectory dirent)
                                        (dirent_name dirent) d) dirents).
  intros content.
  assert (Hl0 : listed (mkWalk (listed st ++ [d]) (collected st)) =
                listed (mkWalk (listed st ++ [d]) (collected st'))) by reflexivity.
  assert (Hc0 : collected (mkWalk (listed st ++ [d]) (collected st)) =
                fold_left (fun s u => collector u s)
                          (collected (mkWalk (listed st ++ [d]) (collected st'))) s0)
    by exact Hc.
  revert Hl0 Hc0.
  generalize (mkWalk (listed st ++ [d]) (collected st)).
  generalize (mkWalk (listed st ++ [d]) (collected st')).
  clear st st' Hl Hc.
  induction content as [| entry content IHc]; intros st' st Hl Hc; [cbn; auto |].
  cbn [forOf]. unfold bind.
  assert (Hentry :
            snd (visit fuel d filter collector entry st) =
            snd (visit fuel d filter (@push URI) entry st') /\
            listed (fst (visit fuel d filter collector entry st)) =
            listed (fst (visit fuel d filter (@push URI) entry st')) /\
            collected (fst (visit fuel d filter collector entry st)) =
            fold_left (fun s u => collector u s)
                      (collected (fst (visit fuel d filter (@push URI) entry st'))) s0).
  { unfold NodeFileSystemProvider.visit.
    destruct (passes filter entry); [| cbn; auto].
    destruct (isDirectory entry); [now apply IH |].
    destruct (isFile entry); [| cbn; auto].
    cbn. repeat split; [assumption |].
    unfold push. now rewrite fold_left_app, <- Hc. }
  destruct (visit fuel d filter collector entry st) as [st1 o1].
  destruct (visit fuel d filter (@push URI) entry st') as [st1' o1'].
  cbn [fst snd] in Hentry. destruct Hentry as (-> & Hl1 & Hc1).
  destruct o1' as [[] | e |]; [now apply IHc | cbn; auto | cbn; auto].
Qed.

(** X4.  [traverseFolder] with any collector behaves as [traverse] does: it
    asks for the same listings and settles alike (also when it is rejected
    or does not settle), and what its collector has accumulated is the
    collector folded, from the initial value, over the locations that
    [traverse] gathers, in their order. *)
Theorem traverseFolder_folds_collector (S : Type) (collector : URI -> S -> S)
        (filter : option (FileSystemFilter URI)) (s0 : S) (fuel : nat) (d : URI) :
  snd (traverseFolder fuel d filter collector (mkWalk [] s0)) =
  snd (run resolvePath readdir fuel d filter) /\
  listed (fst (traverseFolder fuel d filter collector (mkWalk [] s0))) =
  listed (fst (run resolvePath readdir fuel d filter)) /\
  collected (fst (traverseFolder fuel d filter collector (mkWalk [] s0))) =
  fold_left (fun s u => collector u s)
            (collected (fst (run resolvePath readdir fuel d filter))) s0.
Proof. unfold run. now apply traverseFolder_any_collector. Qed.

End WalkFacts.

(** ** Sublists *)

Section SubseqFacts.

Variables A B : Type.

Lemma Subseq_refl (l : list A) : Subseq l l.
Proof. induction l; constructor; assumption. Qed.

Lemma Subseq_nil_l (l : list A) : Subseq [] l.
Proof. induction l; constructor; assumption. Qed.

Lemma Subseq_app (l1 l1' l2 l2' : list A) :
  Subseq l1 l1' -> Subseq l2 l2' -> Subseq (l1 ++ l2) (l1' ++ l2').
Proof.
  induction 1 as [| x l1 l1' _ IH | x l1 l1' _ IH]; intros H2; cbn.
  - assumption.
  - apply Subseq_skip. now apply IH.
  - apply Subseq_keep. now apply IH.
Qed.

Lemma Subseq_flat_map (f g : B -> list A) (l : list B) :
  (forall b, In b l -> Subseq (f b) (g b)) -> Subseq (flat_map f l) (flat_map g l).
Proof.
  induction l as [| b l IH]; cbn; intros H; [constructor |].
  apply Subseq_app; [apply H; now left | apply IH; intros c Hc; apply H; now right].
Qed.

Lemma flat_map_nil (f : B -> list A) (l : list B) :
  (forall b, In b l -> f b = []) -> flat_map f l = [].
Proof.
  induction l as [| b l IH]; cbn; intros H; [reflexivity |].
  rewrite (H b) by now left. apply IH. intros c Hc. apply H. now right.
Qed.

End SubseqFacts.

(** ** The traversal of a directory tree under a filter *)

Section FilteredWalkFacts.

Variable URI : Type.
Variable Error : Type.
Variable resolvePath : URI -> string -> URI.
Variable readdir : URI -> Error + list Dirent.

Import NodeFileSystemProvider.

Lemma preorderFiles_locations (accept : FileSystemNode URI -> bool) (d : URI) (t : FsTree) :
  incl (preorderFiles resolvePath accept d t) (locations resolvePath d t).
Proof.
  intros u Hu. apply fileLocations_incl. revert Hu. apply preorderFiles_incl.
Qed.

Lemma preorderFolders_locations (accept : FileSystemNode URI -> bool) (d : URI) (t : FsTree) :
  incl (preorderFolders resolvePath accept d t) (locations resolvePath d t).
Proof.
  intros u Hu. apply folderLocations_incl. revert Hu. apply preorderFolders_incl.
Qed.

Lemma NoDup_preorderFiles (accept : FileSystemNode URI -> bool) (t : FsTree) :
  forall d, NoDup (locations resolvePath d t) ->
            NoDup (preorderFiles resolvePath accept d t).
Proof.
  induction t as [n | n content IH | n k] using FsTree_induction; intros d Hnd;
    cbn [preorderFiles]; destruct (accept _); try apply NoDup_nil.
  - exact Hnd.
  - cbn in Hnd. inversion Hnd as [| ? ? _ Hnd']; subst. rewrite Forall_forall in IH.
    revert Hnd'. apply NoDup_flat_map_within.
    + intros c _. apply preorderFiles_locations.
    + intros c Hc. now apply IH.
Qed.

Lemma NoDup_preorderFolders (accept : FileSystemNode URI -> bool) (t : FsTree) :
  forall d, NoDup (locations resolvePath d t) ->
            NoDup (preorderFolders resolvePath accept d t).
Proof.
  induction t as [n | n content IH | n k] using FsTree_induction; intros d Hnd;
    cbn [preorderFolders]; destruct (accept _); try apply NoDup_nil.
  cbn in Hnd. inversion Hnd as [| ? ? Hn Hnd']; subst. rewrite Forall_forall in IH.
  apply NoDup_cons.
  - intros Hin. apply Hn. revert Hin. apply flat_map_incl.
    intros c _. apply preorderFolders_locations.
  - revert Hnd'. apply NoDup_flat_map_within.
    + intros c _. apply preorderFolders_locations.
    + intros c Hc. now apply IH.
Qed.

(** X5.  On a directory tree, whatever the filter, the traversal asks for
    no listing twice and collects no location twice. *)
Theorem traverse_visits_once (root : URI) (content : list FsTree) (fuel : nat)
        (filter : option (FileSystemFilter URI)) :
  Models resolvePath readdir root content ->
  NoDup (locationsOfContent resolvePath root content) ->
  depthOfContent content <= fuel ->
  NoDup (listed (fst (run resolvePath readdir fuel root filter))) /\
  exists uris,
    traverse resolvePath readdir fuel root filter = Resolved uris /\ NoDup uris.
Proof.
  intros HM Hnd Hfuel. unfold locationsOfContent in Hnd.
  inversion Hnd as [| ? ? Hroot Hnd']; subst.
  rewrite (traverse_Models filter HM Hfuel), (run_Models filter HM Hfuel).
  cbn [fst listed]. split.
  - constructor.
    + intros Hin. apply Hroot. revert Hin. apply flat_map_incl.
      intros c _. apply preorderFolders_locations.
    + revert Hnd'. apply NoDup_flat_map_within.
      * intros c _. apply preorderFolders_locations.
      * intros c _. apply NoDup_preorderFolders.
  - eexists. split; [reflexivity |]. revert Hnd'. apply NoDup_flat_map_within.
    + intros c _. apply preorderFiles_locations.
    + intros c _. apply NoDup_preorderFiles.
Qed.

Lemma preorderFiles_found (accept : FileSystemNode URI -> bool) (k : nat) :
  forall content d u,
    depthOfContent content <= k ->
    In u (flat_map (preorderFiles resolvePath accept d) content) ->
    exists d' cd n,
      Entered resolvePath accept d content d' cd /\
      In (File n) cd /\
      accept (nodeOf d' (File n)) = true /\
      u = resolvePath d' n.
Proof.
  induction k as [| k IH]; intros content d u Hk Hu;
    [unfold depthOfContent in Hk; lia |].
  apply in_flat_map in Hu as (c & Hc & Hu).
  pose proof (depth_le_content _ _ Hc) as Hdepth.
  destruct c as [n | n sub | n s]; cbn [preorderFiles] in Hu;
    destruct (accept _) eqn:Hacc; try contradiction.
  - destruct Hu as [<- | []]. exists d, content, n.
    split; [apply Entered_here | auto].
  - destruct (IH sub (resolvePath d n) u) as (d' & cd & m & HE & Hm & Hacc' & ->);
      [cbn in Hdepth; unfold depthOfContent in *; lia | exact Hu |].
    exists d', cd, m. split; [| auto].
    apply Entered_below with (n := n) (sub := sub); assumption.
Qed.

Lemma found_preorderFiles (accept : FileSystemNode URI -> bool)
      (d : URI) (content : list FsTree) (d' : URI) (cd : list FsTree) (n : string) :
  Entered resolvePath accept d content d' cd ->
  In (File n) cd ->
  accept (nodeOf d' (File n)) = true ->
  In (resolvePath d' n) (flat_map (preorderFiles resolvePath accept d) content).
Proof.
  intros HE Hn Hacc. destruct (Entered_segment HE) as (a & b & ->).
  apply in_or_app. right. apply in_or_app. left.
  apply (in_flat_map_incl _ _ _ Hn). cbn [preorderFiles]. rewrite Hacc. now left.
Qed.

(** X6.  On a directory tree, a location is in the result of [traverse]
    exactly when it is that of a file that the filter accepts and that lies
    in the root or in a directory reached from the root through directories
    that the filter accepts, one after the other. *)
Theorem traverse_collects_accepted_files (root : URI) (content : list FsTree) (fuel : nat)
        (filter : option (FileSystemFilter URI)) :
  Models resolvePath readdir root content ->
  depthOfContent content <= fuel ->
  exists uris,
    traverse resolvePath readdir fuel root filter = Resolved uris /\
    forall u,
      In u uris <->
      exists d cd n,
        Entered resolvePath (passes filter) root content d cd /\
        In (File n) cd /\
        passes filter (nodeOf d (File n)) = true /\
        u = resolvePath d n.
Proof.
  intros HM Hfuel. rewrite (traverse_Models filter HM Hfuel).
  eexists. split; [reflexivity |]. intros u. split.
  - apply preorderFiles_found with (k := depthOfContent content). apply le_n.
  - intros (d & cd & n & HE & Hn & Hacc & ->).
    now apply found_preorderFiles with (cd := cd).
Qed.

(** Nothing that a walk takes from the tree lies in or below a node that the
    filter rejects. *)
Lemma rejected_node_apart (accept : FileSystemNode URI -> bool) :
  forall d0 c0 d cd,
    Entered resolvePath (fun _ => true) d0 c0 d cd ->
    forall t,
      In t cd ->
      accept (nodeOf d t) = false ->
      NoDup (flat_map (locations resolvePath d0) c0) ->
      forall u, In u (flat_map (preorderFiles resolvePath accept d0) c0) ->
                In u (locations resolvePath d t) -> False.
Proof.
  intros d0 c0 d cd HE.
  induction HE as [d0 c0 | d0 c0 n1 sub1 d cd Hin1 _ HE IH];
    intros t Hin Hacc Hnd u Hu Hloc.
  - apply in_split in Hin as (l1 & l2 & ->).
    assert (Hnil : preorderFiles resolvePath accept d0 t = [])
      by (destruct t; cbn [preorderFiles]; now rewrite Hacc).
    rewrite flat_map_split, Hnil in Hu.
    cbn [app] in Hu. rewrite <- flat_map_app in Hu.
    apply in_flat_map in Hu as (c & Hc & Hu).
    apply NoDup_flat_map_apart with (f := locations resolvePath d0) (l1 := l1) (l2 := l2)
                                    (a := t) (c := c) (b := u);
      [exact Hnd | exact Hc | now apply preorderFiles_locations in Hu | exact Hloc].
  - assert (Hbelow : In u (flat_map (locations resolvePath (resolvePath d0 n1)) sub1)).
    { apply (Entered_locations HE). apply (in_flat_map_incl _ _ _ Hin). exact Hloc. }
    apply in_split in Hin1 as (l1 & l2 & ->).
    assert (Hnd1 : NoDup (locations resolvePath d0 (Folder n1 sub1))).
    { rewrite flat_map_split in Hnd.
      apply NoDup_app_r in Hnd. now apply NoDup_app_l in Hnd. }
    rewrite flat_map_split in Hu.
    apply in_app_or in Hu as [Hu | Hu]; [| apply in_app_or in Hu as [Hu | Hu]].
    + apply in_flat_map in Hu as (c & Hc & Hu).
      apply NoDup_flat_map_apart with (f := locations resolvePath d0) (l1 := l1) (l2 := l2)
                                      (a := Folder n1 sub1) (c := c) (b := u);
        [exact Hnd | apply in_or_app; now left
         | now apply preorderFiles_locations in Hu | cbn; now right].
    + cbn in Hnd1. inversion Hnd1 as [| ? ? Hhead Htail]; subst.
      cbn [preorderFiles] in Hu.
      destruct (accept (nodeOf d0 (Folder n1 sub1))); [| contradiction].
      apply (IH t Hin Hacc Htail u Hu Hloc).
    + apply in_flat_map in Hu as (c & Hc & Hu).
      apply NoDup_flat_map_apart with (f := locations resolvePath d0) (l1 := l1) (l2 := l2)
                                      (a := Folder n1 sub1) (c := c) (b := u);
        [exact Hnd | apply in_or_app; now right
         | now apply preorderFiles_locations in Hu | cbn; now right].
Qed.

(** X7.  On a directory tree, a file that the filter rejects is not in the
    result, wherever it lies; and when its directory is one that the
    traversal enters, the files beside it that the filter accepts are. *)
Theorem traverse_leaves_out_rejected_file
        (root : URI) (content : list FsTree) (fuel : nat) (filter : FileSystemFilter URI)
        (d : URI) (cd : list FsTree) (n : string) :
  Models resolvePath readdir root content ->
  NoDup (locationsOfContent resolvePath root content) ->
  depthOfContent content <= fuel ->
  Entered resolvePath (fun _ => true) root content d cd ->
  In (File n) cd ->
  filter (nodeOf d (File n)) = false ->
  exists uris,
    traverse resolvePath readdir fuel root (Some filter) = Resolved uris /\
    ~ In (resolvePath d n) uris /\
    (Entered resolvePath filter root content d cd ->
     forall m, In (File m) cd ->
               filter (nodeOf d (File m)) = true ->
               In (resolvePath d m) uris).
Proof.
  intros HM Hnd Hfuel HE Hn Hrej. unfold locationsOfContent in Hnd.
  inversion Hnd as [| ? ? _ Hnd']; subst.
  rewrite (traverse_Models (Some filter) HM Hfuel).
  eexists. split; [reflexivity |]. split.
  - intros Hin.
    apply (@rejected_node_apart (passes (Some filter)) root content d cd HE
                                (File n) Hn Hrej Hnd' (resolvePath d n) Hin).
    now left.
  - intros HE' m Hm Hacc.
    now apply (@found_preorderFiles (passes (Some filter)) root content d cd m).
Qed.

Lemma preorderFiles_Subseq (f g : FileSystemNode URI -> bool) (t : FsTree) :
  (forall entry, f entry = true -> g entry = true) ->
  forall d, Subseq (preorderFiles resolvePath f d t) (preorderFiles resolvePath g d t).
Proof.
  intros Hfg.
  induction t as [n | n content IH | n k] using FsTree_induction; intros d;
    cbn [preorderFiles]; destruct (f _) eqn:Hf;
    try (rewrite (Hfg _ Hf)); try apply Subseq_refl; try apply Subseq_nil_l.
  apply Subseq_flat_map. intros c Hc. rewrite Forall_forall in IH. now apply IH.
Qed.

Lemma preorderFolders_Subseq (f g : FileSystemNode URI -> bool) (t : FsTree) :
  (forall entry, f entry = true -> g entry = true) ->
  forall d, Subseq (preorderFolders resolvePath f d t) (preorderFolders resolvePath g d t).
Proof.
  intros Hfg.
  induction t as [n | n content IH | n k] using FsTree_induction; intros d;
    cbn [preorderFolders]; destruct (f _) eqn:Hf;
    try (rewrite (Hfg _ Hf)); try apply Subseq_refl; try apply Subseq_nil_l.
  apply Subseq_keep, Subseq_flat_map. intros c Hc. rewrite Forall_forall in IH.
  now apply IH.
Qed.

(** X8.  A stricter filter only leaves out: on a directory tree, when every
    entry that one filter accepts is accepted by another, the first
    traversal lists a sublist of the directories that the second lists and
    returns a sublist of the locations that the second returns, in the same
    order.  In particular every filtered result is a sublist of the result
    without filter. *)
Theorem traverse_monotone_in_filter
        (root : URI) (content : list FsTree) (fuel : nat)
        (f g : option (FileSystemFilter URI)) :
  Models resolvePath readdir root content ->
  depthOfContent content <= fuel ->
  (forall entry, passes f entry = true -> passes g entry = true) ->
  exists urisF urisG,
    traverse resolvePath readdir fuel root f = Resolved urisF /\
    traverse resolvePath readdir fuel root g = Resolved urisG /\
    Subseq urisF urisG /\
    Subseq (listed (fst (run resolvePath readdir fuel root f)))
           (listed (fst (run resolvePath readdir fuel root g))).
Proof.
  intros HM Hfuel Hfg.
  rewrite (traverse_Models f HM Hfuel), (traverse_Models g HM Hfuel),
          (run_Models f HM Hfuel), (run_Models g HM Hfuel).
  eexists. eexists. split; [reflexivity |]. split; [reflexivity |]. cbn [fst listed].
  split.
  - apply Subseq_flat_map. intros c _. now apply preorderFiles_Subseq.
  - apply Subseq_keep, Subseq_flat_map. intros c _. now apply preorderFolders_Subseq.
Qed.

Lemma preorder_same_answers (f g : FileSystemNode URI -> bool) (k : nat) :
  forall content d,
    depthOfContent content <= k ->
    (forall d' cd c, Entered resolvePath f d content d' cd -> In c cd ->
                     f (nodeOf d' c) = g (nodeOf d' c)) ->
    flat_map (preorderFiles resolvePath f d) content =
    flat_map (preorderFiles resolvePath g d) content /\
    flat_map (preorderFolders resolvePath f d) content =
    flat_map (preorderFolders resolvePath g d) content.
Proof.
  induction k as [| k IH]; intros content d Hk Hsame;
    [unfold depthOfContent in Hk; lia |].
  assert (Heach : forall c, In c content ->
             preorderFiles resolvePath f d c = preorderFiles resolvePath g d c /\
             preorderFolders resolvePath f d c = preorderFolders resolvePath g d c).
  { intros c Hc. pose proof (depth_le_content _ _ Hc) as Hdepth.
    pose proof (Hsame d content c (Entered_here resolvePath f d content) Hc) as Hfg.
    destruct c as [n | n sub | n s]; cbn [preorderFiles preorderFolders];
      rewrite <- Hfg; destruct (f _) eqn:Hf; auto.
    destruct (IH sub (resolvePath d n)) as (-> & ->); auto.
    - cbn in Hdepth. unfold depthOfContent in *. lia.
    - intros d' cd c HE Hin. apply (Hsame d' cd c); [| exact Hin].
      apply Entered_below with (n := n) (sub := sub); assumption. }
  split; apply flat_map_ext_within; intros c Hc; now apply Heach.
Qed.

(** X9.  The filter is consulted only for the entries of the directories
    that the traversal enters: on a directory tree, two filters that give
    the same answers on those entries give the same run, whatever they
    answer elsewhere (for instance below a directory that is rejected). *)
Theorem traverse_consults_filter_where_it_enters
        (root : URI) (content : list FsTree) (fuel : nat)
        (f g : option (FileSystemFilter URI)) :
  Models resolvePath readdir root content ->
  depthOfContent content <= fuel ->
  (forall d cd c,
      Entered resolvePath (passes f) root content d cd ->
      In c cd ->
      passes f (nodeOf d c) = passes g (nodeOf d c)) ->
  run resolvePath readdir fuel root g = run resolvePath readdir fuel root f /\
  traverse resolvePath readdir fuel root g = traverse resolvePath readdir fuel root f.
Proof.
  intros HM Hfuel Hsame.
  destruct (@preorder_same_answers (passes f) (passes g) (depthOfContent content)
                                   content root (le_n _) Hsame) as (Hfiles & Hfolders).
  rewrite (traverse_Models f HM Hfuel), (traverse_Models g HM Hfuel),
          (run_Models f HM Hfuel), (run_Models g HM Hfuel).
  now rewrite Hfiles, Hfolders.
Qed.

End FilteredWalkFacts.

(** ** The default filter at work *)

Section DefaultFilterFacts.

Variable URI : Type.
Variable Error : Type.
Variable resolvePath : URI -> string -> URI.
Variable readdir : URI -> Error + list Dirent.
Variable extname : string -> string.

Import NodeFileSystemProvider.
Import DefaultWorkspaceManager.

(** X10.  The default filter depends on the recognized extensions as a set:
    the order in which the languages are registered and extensions named
    twice make no difference, and recognizing more extensions never
    excludes an entry that was included. *)
Theorem includeNode_extension_set (node : FileSystemNode URI) (exts exts' : list string) :
  ((forall x, In x exts -> In x exts') ->
   includeNode extname node exts = true -> includeNode extname node exts' = true) /\
  ((forall x, In x exts <-> In x exts') ->
   includeNode extname node exts = includeNode extname node exts').
Proof.
  assert (Hmono : forall l l', (forall x, In x l -> In x l') ->
                    includeNode extname node l = true -> includeNode extname node l' = true).
  { intros l l' Hincl. unfold includeNode.
    destruct (startsWith (name node) "."); [auto |].
    destruct (isDirectory node); [auto |].
    destruct (isFile node); [| auto].
    rewrite !includes_In. apply Hincl. }
  split; [apply Hmono |].
  intros Hsame.
  destruct (includeNode extname node exts) eqn:H1, (includeNode extname node exts') eqn:H2;
    try reflexivity.
  - rewrite (Hmono exts exts') in H2; [discriminate | apply Hsame | exact H1].
  - rewrite (Hmono exts' exts) in H1; [discriminate | apply Hsame | exact H2].
Qed.

Lemma preorderFiles_no_file (accept : FileSystemNode URI -> bool) (t : FsTree) :
  (forall d n, accept (nodeOf d (File n)) = false) ->
  forall d, preorderFiles resolvePath accept d t = [].
Proof.
  intros Hnone.
  induction t as [n | n content IH | n k] using FsTree_induction; intros d;
    cbn [preorderFiles].
  - now rewrite Hnone.
  - destruct (accept _); [| reflexivity].
    apply flat_map_nil. intros c Hc. rewrite Forall_forall in IH. now apply IH.
  - now destruct (accept _).
Qed.

(** X11.  When no extension is recognized (no language is registered, or
    none declares an extension), the traversal under the default filter
    still resolves on every directory tree, with no location at all. *)
Theorem traverse_without_extensions (root : URI) (content : list FsTree) (fuel : nat) :
  Models resolvePath readdir root content ->
  depthOfContent content <= fuel ->
  traverse resolvePath readdir fuel root
           (Some (fun node => includeNode extname node [])) = Resolved [].
Proof.
  intros HM Hfuel.
  rewrite (traverse_Models (Some (fun node => includeNode extname node [])) HM Hfuel).
  f_equal. apply flat_map_nil. intros c _. apply preorderFiles_no_file.
  intros d n. unfold passes, includeNode. destruct (startsWith _ _); reflexivity.
Qed.

End DefaultFilterFacts.

Section DefaultFilterPaths.

Variable Error : Type.
Variable readdir : Posix.Path -> Error + list Dirent.
Variable extname : string -> string.
Variable exts : list string.

Import NodeFileSystemProvider.
Import DefaultWorkspaceManager.

Local Notation default := (fun node : FileSystemNode Posix.Path => includeNode extname node exts).

Lemma not_hidden (n : string) :
  startsWith n "." = false -> forall rest, n <> String "."%char rest.
Proof.
  intros Hs rest ->. assert (H : startsWith (String "."%char rest) "." = true)
    by (apply startsWith_dot; eauto).
  congruence.
Qed.

Lemma Entered_default_path (root : Posix.Path) (content : list FsTree)
      (d : Posix.Path) (cd : list FsTree) :
  Entered Posix.resolvePath default root content d cd ->
  exists segments, d = root ++ segments /\ Forall searchable segments.
Proof.
  induction 1 as [root content | root content n sub d cd _ Hacc _ IH].
  - exists []. split; [now rewrite app_nil_r | constructor].
  - destruct IH as (segments & -> & Hs). exists (n :: segments). split.
    + unfold Posix.resolvePath. now rewrite <- app_assoc.
    + constructor; [| exact Hs].
      apply (includeNode_directory extname (nodeOf root (Folder n sub)) exts eq_refl)
        in Hacc as (Hdot & Hnm & Hout).
      repeat split; try assumption. now apply not_hidden.
Qed.

(** X12.  With locations that are paths, on a directory tree: every path
    that the traversal under the default filter returns is the root
    followed by directory names that have no leading dot and are neither
    [node_modules] nor [out], at every depth, and by a file name that has no
    leading dot and whose extension is a recognized one. *)
Theorem traverse_default_paths (root : Posix.Path) (content : list FsTree) (fuel : nat) :
  Models Posix.resolvePath readdir root content ->
  depthOfContent content <= fuel ->
  exists uris,
    traverse Posix.resolvePath readdir fuel root (Some default) = Resolved uris /\
    forall u, In u uris ->
      exists segments n,
        u = root ++ segments ++ [n] /\
        Forall searchable segments /\
        (forall rest, n <> String "."%char rest) /\
        In (extname n) exts.
Proof.
  intros HM Hfuel. rewrite (traverse_Models (Some default) HM Hfuel).
  eexists. split; [reflexivity |]. intros u Hu.
  apply preorderFiles_found with (k := depthOfContent content) in Hu; [| apply le_n].
  destruct Hu as (d & cd & n & HE & _ & Hacc & ->).
  apply Entered_default_path in HE as (segments & -> & Hs).
  exists segments, n. split; [unfold Posix.resolvePath; now rewrite app_assoc |].
  split; [exact Hs |].
  apply (includeNode_file extname (nodeOf (root ++ segments) (File n)) exts eq_refl eq_refl)
    in Hacc as (Hdot & Hext).
  split; [now apply not_hidden | exact Hext].
Qed.

End DefaultFilterPaths.

(** ** Initialization: the other ways it can go *)

Section ManagerMoreFacts.

Variable URI : Type.
Variable Error : Type.
Variable LangiumDocument : Type.
Variable Host : Type.
Variable race : Error -> list Error -> Error.
Variable services : LangiumSharedServices URI Error LangiumDocument Host.
Variable this : Methods URI Error LangiumDocument Host.

Import DefaultWorkspaceManager.

Local Notation extensions :=
  (flat_map (fun e => fileExtensions (LanguageMetaData e)) (all (serviceRegistry services))).
Local Notation roots folders := (map (this_getRootFolder this) folders).

(** Once all the traversals have resolved, the rest runs from the world in
    which the traversals, and nothing else, have been called. *)
Lemma initializeWorkspace_after_traversals
      (folders : list WorkspaceFolder) (h : Host) (uriss : list (list URI)) :
  Forall2 (fun wf uris =>
             traverseFolder services this (this_getRootFolder this wf) extensions
             = Resolved uris)
          folders uriss ->
  initializeWorkspace race services this folders (mkWorld h []) =
  (documents <- mapDocuments services (concat uriss) ;;
   documents <- call_loadAdditionalDocuments this folders documents ;;
   call_build services documents)
    (mkWorld h (map Call_traverse (roots folders))).
Proof.
  intros Htraverse. unfold initializeWorkspace.
  pose proof (startTraversals_world services this (roots folders) extensions
                                    (mkWorld h [])) as Hw.
  destruct (startTraversals _ _ _ _ _) as [w1 promises] eqn:Hstart.
  cbn [fst host calls app] in Hw. subst w1.
  unfold startTraversals in Hstart. injection Hstart as _ <-.
  erewrite resolved_promises by exact Htraverse.
  rewrite Promise_all_resolved. reflexivity.
Qed.

Lemma mapDocuments_fails (before : list URI) :
  forall (w : World URI LangiumDocument Host) documents h1 uri h2 e after,
    Created services (host w) before documents h1 ->
    getOrCreateDocument (langiumDocuments services) uri h1 = (h2, inl e) ->
    mapDocuments services (before ++ uri :: after) w =
    (mkWorld h2 (calls w ++ map Call_getOrCreateDocument (before ++ [uri])), Rejected e).
Proof.
  induction before as [| u before IH]; intros w documents h1 uri h2 e after HC Hfail;
    inversion HC; subst.
  - cbn [app mapDocuments]. unfold bind at 1, call_getOrCreateDocument at 1.
    rewrite Hfail. reflexivity.
  - cbn [app mapDocuments]. unfold bind at 1. unfold call_getOrCreateDocument at 1.
    match goal with H : getOrCreateDocument _ u _ = _ |- _ => rewrite H end.
    unfold bind at 1. erewrite IH by (cbn; eassumption).
    cbn. now rewrite <- app_assoc.
Qed.

(** X13.  With no workspace folder there is no traversal and no request to
    the store: the hook is called, and when it resolves [build] is called
    with the documents of the hook alone. *)
Theorem initializeWorkspace_without_folders
        (h h2 : Host) (extra : list LangiumDocument) :
  this_loadAdditionalDocuments this [] h = ((h2, extra), Resolved tt) ->
  initializeWorkspace race services this [] (mkWorld h []) =
  (mkWorld (fst (build (documentBuilder services) extra h2))
           [Call_loadAdditionalDocuments []; Call_build extra],
   snd (build (documentBuilder services) extra h2)).
Proof.
  intros Hhook. rewrite (@initializeWorkspace_after_traversals [] h []) by constructor.
  cbn [concat mapDocuments map]. unfold bind, ret, call_loadAdditionalDocuments.
  cbn [host calls]. rewrite Hhook. unfold call_build, collector.
  rewrite fold_left_push. cbn [host calls record withHost app].
  now destruct (build (documentBuilder services) extra h2).
Qed.

(** X14.  When the store throws for one of the locations found, the
    initialization is rejected with what it threw: the store has been asked
    for the locations up to that one and for none after it, and neither the
    hook nor [build] is called. *)
Theorem initializeWorkspace_store_fails
        (folders : list WorkspaceFolder) (h : Host) (uriss : list (list URI))
        (before : list URI) (uri : URI) (after : list URI)
        (documents : list LangiumDocument) (h1 h2 : Host) (e : Error) :
  Forall2 (fun wf uris =>
             traverseFolder services this (this_getRootFolder this wf) extensions
             = Resolved uris)
          folders uriss ->
  concat uriss = before ++ uri :: after ->
  Created services h before documents h1 ->
  getOrCreateDocument (langiumDocuments services) uri h1 = (h2, inl e) ->
  initializeWorkspace race services this folders (mkWorld h []) =
  (mkWorld h2 (map Call_traverse (roots folders)
                   ++ map Call_getOrCreateDocument (before ++ [uri])),
   Rejected e).
Proof.
  intros Htraverse Hsplit Hcreated Hfail.
  rewrite (initializeWorkspace_after_traversals h Htraverse), Hsplit.
  unfold bind at 1.
  rewrite (@mapDocuments_fails before
             (mkWorld h (map Call_traverse (roots folders)))
             documents h1 uri h2 e after Hcreated Hfail).
  reflexivity.
Qed.

(** X15.  When the hook does not resolve, the initialization ends as the
    hook does (rejected with its error, or never settled): the traversals
    and the requests to the store have been made, the hook has been called,
    and [build] is not. *)
Theorem initializeWorkspace_hook_fails
        (folders : list WorkspaceFolder) (h : Host) (uriss : list (list URI))
        (documents pushed : list LangiumDocument) (h1 h2 : Host)
        (o : Outcome Error unit) :
  Forall2 (fun wf uris =>
             traverseFolder services this (this_getRootFolder this wf) extensions
             = Resolved uris)
          folders uriss ->
  Created services h (concat uriss) documents h1 ->
  this_loadAdditionalDocuments this folders h1 = ((h2, pushed), o) ->
  o <> Resolved tt ->
  initializeWorkspace race services this folders (mkWorld h []) =
  (mkWorld h2 (map Call_traverse (roots folders)
                   ++ map Call_getOrCreateDocument (concat uriss)
                   ++ [Call_loadAdditionalDocuments folders]),
   o).
Proof.
  intros Htraverse Hcreated Hhook Ho.
  rewrite (initializeWorkspace_after_traversals h Htraverse).
  unfold bind at 1. erewrite mapDocuments_Created by (cbn; eassumption).
  unfold bind at 1. unfold call_loadAdditionalDocuments at 1. cbn [host calls].
  rewrite Hhook. unfold record, withHost. cbn [host calls].
  destruct o as [[] | e |]; [congruence | |]; now rewrite <- app_assoc.
Qed.

Lemma Promise_all_pending (A : Type) (ps : list (Outcome Error A)) :
  (forall e, ~ In (Rejected e) ps) ->
  In Pending ps ->
  Promise_all race ps = Pending.
Proof.
  intros Hnone Hpending. unfold Promise_all.
  destruct (rejections ps) as [| e es] eqn:Hrej.
  - assert (Hres : resolutions ps = None).
    { clear Hnone Hrej. induction ps as [| p ps IH]; [contradiction |].
      destruct Hpending as [-> | Hin]; [reflexivity |].
      destruct p; cbn; [now rewrite IH | reflexivity | reflexivity]. }
    now rewrite Hres.
  - exfalso. apply (Hnone e). apply rejections_In. rewrite Hrej. now left.
Qed.

(** X16.  When the traversal of one root never settles and none is
    rejected, the initialization never settles either: the traversals have
    been started, and nothing else is ever called. *)
Theorem initializeWorkspace_never_settles
        (folders : list WorkspaceFolder) (h : Host) (wf : WorkspaceFolder) :
  In wf folders ->
  traverseFolder services this (this_getRootFolder this wf) extensions = Pending ->
  (forall wf' e, In wf' folders ->
                 traverseFolder services this (this_getRootFolder this wf') extensions
                 <> Rejected e) ->
  initializeWorkspace race services this folders (mkWorld h []) =
  (mkWorld h (map Call_traverse (roots folders)), Pending).
Proof.
  intros Hwf Hpending Hnone. unfold initializeWorkspace.
  pose proof (startTraversals_world services this (roots folders) extensions
                                    (mkWorld h [])) as Hw.
  destruct (startTraversals _ _ _ _ _) as [w1 promises] eqn:Hstart.
  cbn [fst host calls app] in Hw. subst w1.
  unfold startTraversals in Hstart. injection Hstart as _ <-.
  rewrite Promise_all_pending; [reflexivity | |].
  - intros e Hin. apply in_map_iff in Hin as (r & Hr & Hin).
    apply in_map_iff in Hin as (wf' & <- & Hwf'). now apply (Hnone wf' e).
  - rewrite <- Hpending.
    apply in_map with (f := fun r => traverseFolder services this r extensions).
    now apply in_map.
Qed.

Lemma initializeWorkspace_success
      (folders : list WorkspaceFolder) (h : Host) (uriss : list (list URI))
      (documents extra : list LangiumDocument) (h1 h2 : Host) :
  Forall2 (fun wf uris =>
             traverseFolder services this (this_getRootFolder this wf) extensions
             = Resolved uris)
          folders uriss ->
  Created services h (concat uriss) documents h1 ->
  this_loadAdditionalDocuments this folders h1 = ((h2, extra), Resolved tt) ->
  initializeWorkspace race services this folders (mkWorld h []) =
  (mkWorld (fst (build (documentBuilder services) (documents ++ extra) h2))
           (map Call_traverse (roots folders)
                ++ map Call_getOrCreateDocument (concat uriss)
                ++ [Call_loadAdditionalDocuments folders; Call_build (documents ++ extra)]),
   snd (build (documentBuilder services) (documents ++ extra) h2)).
Proof.
  intros Htraverse Hcreated Hhook.
  rewrite (initializeWorkspace_after_traversals h Htraverse).
  unfold bind at 1. erewrite mapDocuments_Created by (cbn; eassumption).
  unfold bind at 1. unfold call_loadAdditionalDocuments at 1. cbn [host calls].
  rewrite Hhook. unfold call_build, collector, record, withHost.
  rewrite fold_left_push. cbn [host calls].
  destruct (build (documentBuilder services) (documents ++ extra) h2) as [h3 o].
  cbn [fst snd]. now rewrite <- !app_assoc.
Qed.

End ManagerMoreFacts.

(** ** From the disk to the build *)

Section EndToEnd.

Variable URI : Type.
Variable Error : Type.
Variable LangiumDocument : Type.
Variable Host : Type.
Variable resolvePath : URI -> string -> URI.
Variable readdir : URI -> Error + list Dirent.
Variable fs_readFile : URI -> Error + string.
Variable race : Error -> list Error -> Error.
Variable registry : ServiceRegistry.
Variable store : LangiumDocuments URI Error LangiumDocument Host.
Variable builder : DocumentBuilder Error LangiumDocument Host.
Variable fuel : nat.
Variable this : Methods URI Error LangiumDocument Host.

Import DefaultWorkspaceManager.

Local Notation services :=
  (mkServices registry store builder
              (NodeFileSystemProvider.provider resolvePath readdir fs_readFile fuel)).
Local Notation accept :=
  (fun node : FileSystemNode URI =>
     this_includeNode this node
       (flat_map (fun e => fileExtensions (LanguageMetaData e)) (all registry))).

(** X17.  When every workspace folder is the root of a directory tree, the
    store hands out the documents and the hook resolves, the initialization
    reaches [build] and calls it once, with the documents of the files that
    the filter accepts, folder after folder in the order of the folders, the
    files of a folder in depth-first pre-order, followed by the documents of
    the hook; its outcome is that of [build]. *)
Theorem initializeWorkspace_on_trees
        (folders : list WorkspaceFolder) (contents : list (list FsTree)) (h : Host)
        (documents extra : list LangiumDocument) (h1 h2 : Host) :
  Forall2 (fun wf content =>
             Models resolvePath readdir (this_getRootFolder this wf) content /\
             depthOfContent content <= fuel)
          folders contents ->
  Created services h
          (concat (map (fun p => flat_map (preorderFiles resolvePath accept
                                             (this_getRootFolder this (fst p))) (snd p))
                       (combine folders contents)))
          documents h1 ->
  this_loadAdditionalDocuments this folders h1 = ((h2, extra), Resolved tt) ->
  exists w',
    initializeWorkspace race services this folders (mkWorld h []) =
    (w', snd (build builder (documents ++ extra) h2)) /\
    buildCalls (calls w') = [documents ++ extra].
Proof.
  intros Htrees Hcreated Hhook.
  assert (Htraverse :
            Forall2 (fun wf uris =>
                       traverseFolder services this (this_getRootFolder this wf)
                         (flat_map (fun e => fileExtensions (LanguageMetaData e))
                                   (all (serviceRegistry services)))
                       = Resolved uris)
                    folders
                    (map (fun p => flat_map (preorderFiles resolvePath accept
                                               (this_getRootFolder this (fst p))) (snd p))
                         (combine folders contents))).
  { clear Hcreated Hhook.
    induction Htrees as [| wf content folders contents [HM Hfuel] _ IH]; cbn [combine map];
      constructor; [| exact IH].
    unfold traverseFolder. cbn [fileSystemProvider traverse NodeFileSystemProvider.provider
                                 serviceRegistry fst snd].
    now rewrite (traverse_Models (Some accept) HM Hfuel). }
  rewrite (@initializeWorkspace_success URI Error LangiumDocument Host race services this
             folders h _ documents extra h1 h2 Htraverse Hcreated Hhook).
  eexists. split; [reflexivity |]. cbn [calls].
  rewrite !buildCalls_app, buildCalls_traverse, buildCalls_getOrCreateDocument.
  reflexivity.
Qed.

End EndToEnd.

(** ** The further properties at work on the example disks *)

Lemma traverse_nothing_to_collect_witness :
  NodeFileSystemProvider.run Posix.resolvePath (Posix.readdirOn [Folder "empty" []]) 1
                             ["empty"] None
  = (NodeFileSystemProvider.mkWalk [["empty"]] [], Resolved tt) /\
  NodeFileSystemProvider.traverse Posix.resolvePath (Posix.readdirOn [Folder "empty" []]) 1
                                  ["empty"] None
  = Resolved [].
Proof.
  apply traverse_nothing_to_collect with (dirents := []).
  - reflexivity.
  - intros de [].
  - apply le_n.
Defined.

Lemma traverse_visits_once_witness :
  NoDup (NodeFileSystemProvider.listed
           (fst (NodeFileSystemProvider.run
                   Posix.resolvePath (Posix.readdirOn Posix.diskB) 3 ["ws1"] None))) /\
  exists uris,
    NodeFileSystemProvider.traverse
      Posix.resolvePath (Posix.readdirOn Posix.diskB) 3 ["ws1"] None = Resolved uris /\
    NoDup uris.
Proof.
  apply traverse_visits_once with (content := Posix.contentB).
  - models.
  - distinct.
  - apply le_n.
Defined.

Lemma traverse_collects_accepted_files_witness :
  exists uris,
    NodeFileSystemProvider.traverse
      Posix.resolvePath (Posix.readdirOn Posix.diskA) 2 ["ws"]
      (Some (fun node => DefaultWorkspaceManager.includeNode Posix.extname node [".lang"]))
    = Resolved uris /\
    forall u,
      In u uris <->
      exists d cd n,
        Entered Posix.resolvePath
                (NodeFileSystemProvider.passes
                   (Some (fun node => DefaultWorkspaceManager.includeNode
                                        Posix.extname node [".lang"])))
                ["ws"] Posix.contentA d cd /\
        In (File n) cd /\
        NodeFileSystemProvider.passes
          (Some (fun node => DefaultWorkspaceManager.includeNode Posix.extname node [".lang"]))
          (nodeOf d (File n)) = true /\
        u = Posix.resolvePath d n.
Proof.
  apply traverse_collects_accepted_files.
  - models.
  - apply le_n.
Defined.

Lemma traverse_leaves_out_rejected_file_witness :
  exists uris,
    NodeFileSystemProvider.traverse
      Posix.resolvePath (Posix.readdirOn Posix.diskA) 2 ["ws"]
      (Some (fun node => DefaultWorkspaceManager.includeNode Posix.extname node [".lang"]))
    = Resolved uris /\
    ~ In (Posix.resolvePath ["ws"] "b.txt") uris /\
    (Entered Posix.resolvePath
             (fun node => DefaultWorkspaceManager.includeNode Posix.extname node [".lang"])
             ["ws"] Posix.contentA ["ws"] Posix.contentA ->
     forall m, In (File m) Posix.contentA ->
               DefaultWorkspaceManager.includeNode
                 Posix.extname (nodeOf ["ws"] (File m)) [".lang"] = true ->
               In (Posix.resolvePath ["ws"] m) uris).
Proof.
  apply traverse_leaves_out_rejected_file with (content := Posix.contentA).
  - models.
  - distinct.
  - apply le_n.
  - apply Entered_here.
  - cbn. tauto.
  - reflexivity.
Defined.

Lemma traverse_monotone_in_filter_witness :
  exists urisF urisG,
    NodeFileSystemProvider.traverse
      Posix.resolvePath (Posix.readdirOn Posix.diskB) 3 ["ws1"]
      (Some (fun node => DefaultWorkspaceManager.includeNode Posix.extname node [".lang"]))
    = Resolved urisF /\
    NodeFileSystemProvider.traverse
      Posix.resolvePath (Posix.readdirOn Posix.diskB) 3 ["ws1"] None
    = Resolved urisG /\
    Subseq urisF urisG /\
    Subseq (NodeFileSystemProvider.listed
              (fst (NodeFileSystemProvider.run
                      Posix.resolvePath (Posix.readdirOn Posix.diskB) 3 ["ws1"]
                      (Some (fun node => DefaultWorkspaceManager.includeNode
                                           Posix.extname node [".lang"])))))
           (NodeFileSystemProvider.listed
              (fst (NodeFileSystemProvider.run
                      Posix.resolvePath (Posix.readdirOn Posix.diskB) 3 ["ws1"] None))).
Proof.
  apply traverse_monotone_in_filter with (content := Posix.contentB).
  - models.
  - apply le_n.
  - reflexivity.
Defined.

Lemma traverse_consults_filter_where_it_enters_witness :
  NodeFileSystemProvider.run
    Posix.resolvePath (Posix.readdirOn Posix.diskA) 2 ["ws"; "sub"]
    (Some (fun node => String.eqb (name node) "c.lang"))
  = NodeFileSystemProvider.run
      Posix.resolvePath (Posix.readdirOn Posix.diskA) 2 ["ws"; "sub"]
      (Some (fun node => DefaultWorkspaceManager.includeNode Posix.extname node [".lang"])) /\
  NodeFileSystemProvider.traverse
    Posix.resolvePath (Posix.readdirOn Posix.diskA) 2 ["ws"; "sub"]
    (Some (fun node => String.eqb (name node) "c.lang"))
  = NodeFileSystemProvider.traverse
      Posix.resolvePath (Posix.readdirOn Posix.diskA) 2 ["ws"; "sub"]
      (Some (fun node => DefaultWorkspaceManager.includeNode Posix.extname node [".lang"])).
Proof.
  apply traverse_consults_filter_where_it_enters with (content := [File "c.lang"]).
  - models.
  - apply le_S, le_n.
  - intros d cd c HE Hc. inversion HE as [| ? ? n sub ? ? Hin _ _]; subst.
    + destruct Hc as [<- | []]. reflexivity.
    + destruct Hin as [Hin | []]. discriminate Hin.
Defined.

Lemma includeNode_extension_set_witness :
  DefaultWorkspaceManager.includeNode
    Posix.extname (nodeOf ["ws"] (File "a.lang")) [".txt"; ".lang"; ".lang"] = true.
Proof.
  apply (proj1 (includeNode_extension_set
                  Posix.extname (nodeOf ["ws"] (File "a.lang"))
                  [".lang"] [".txt"; ".lang"; ".lang"])).
  - intros x [<- | []]. cbn. tauto.
  - reflexivity.
Defined.

Lemma traverse_without_extensions_witness :
  NodeFileSystemProvider.traverse
    Posix.resolvePath (Posix.readdirOn Posix.diskA) 2 ["ws"]
    (Some (fun node => DefaultWorkspaceManager.includeNode Posix.extname node []))
  = Resolved [].
Proof.
  apply traverse_without_extensions with (content := Posix.contentA).
  - models.
  - apply le_n.
Defined.

Lemma traverse_default_paths_witness :
  exists uris,
    NodeFileSystemProvider.traverse
      Posix.resolvePath (Posix.readdirOn Posix.diskB) 3 ["ws1"]
      (Some (fun node => DefaultWorkspaceManager.includeNode Posix.extname node [".lang"]))
    = Resolved uris /\
    forall u, In u uris ->
      exists segments n,
        u = ["ws1"] ++ segments ++ [n] /\
        Forall searchable segments /\
        (forall rest, n <> String "."%char rest) /\
        In (Posix.extname n) [".lang"].
Proof.
  apply traverse_default_paths with (content := Posix.contentB).
  - models.
  - apply le_n.
Defined.

Lemma initializeWorkspace_without_folders_witness :
  Posix.initializeWorkspace (Posix.readdirOn Posix.diskA) 2 [".lang"] []
  = (mkWorld [] [Call_loadAdditionalDocuments []; Call_build []], Resolved tt).
Proof.
  apply (@initializeWorkspace_without_folders
           Posix.Path Posix.Errno Posix.Document Posix.Store Posix.race
           (Posix.services (Posix.readdirOn Posix.diskA) 2 [".lang"])
           (@DefaultWorkspaceManager.methods
              Posix.Path Posix.Errno Posix.Document Posix.Store
              Posix.URI_parse Posix.extname)
           [] [] []).
  reflexivity.
Defined.

Lemma initializeWorkspace_store_fails_witness :
  DefaultWorkspaceManager.initializeWorkspace
    Posix.race
    (mkServices (Posix.registry [".lang"])
                (Posix.storeWithout [["ws"; "sub"; "c.lang"]])
                Posix.builder
                (NodeFileSystemProvider.provider
                   Posix.resolvePath (Posix.readdirOn Posix.diskA) Posix.fs_readFile 2))
    (Posix.methodsWith (fun _ h => ((h, []), Resolved tt)))
    [Posix.ws] (mkWorld [] [])
  = (mkWorld [["ws"; "a.lang"]]
             (map Call_traverse (map Posix.URI_parse ["file:///ws"])
                  ++ map Call_getOrCreateDocument
                         ([["ws"; "a.lang"]] ++ [["ws"; "sub"; "c.lang"]])),
     Rejected Posix.ENOENT).
Proof.
  apply (@initializeWorkspace_store_fails
           Posix.Path Posix.Errno Posix.Document Posix.Store Posix.race
           (mkServices (Posix.registry [".lang"])
                       (Posix.storeWithout [["ws"; "sub"; "c.lang"]])
                       Posix.builder
                       (NodeFileSystemProvider.provider
                          Posix.resolvePath (Posix.readdirOn Posix.diskA)
                          Posix.fs_readFile 2))
           (Posix.methodsWith (fun _ h => ((h, []), Resolved tt)))
           [Posix.ws] []
           [[["ws"; "a.lang"]; ["ws"; "sub"; "c.lang"]]]
           [["ws"; "a.lang"]] ["ws"; "sub"; "c.lang"] []
           [["ws"; "a.lang"]] [["ws"; "a.lang"]] [["ws"; "a.lang"]] Posix.ENOENT).
  - constructor; [reflexivity | constructor].
  - reflexivity.
  - apply DefaultWorkspaceManager.Created_cons with (h1 := [["ws"; "a.lang"]]);
      [reflexivity | apply DefaultWorkspaceManager.Created_nil].
  - reflexivity.
Defined.

Lemma initializeWorkspace_hook_fails_witness :
  DefaultWorkspaceManager.initializeWorkspace
    Posix.race (Posix.services (Posix.readdirOn Posix.diskA) 2 [".lang"])
    (Posix.methodsWith (fun _ h => ((h, [["lib"]]), Rejected Posix.EACCES)))
    [Posix.ws] (mkWorld [] [])
  = (mkWorld [["ws"; "a.lang"]; ["ws"; "sub"; "c.lang"]]
             (map Call_traverse (map Posix.URI_parse ["file:///ws"])
                  ++ map Call_getOrCreateDocument
                         (concat [[["ws"; "a.lang"]; ["ws"; "sub"; "c.lang"]]])
                  ++ [Call_loadAdditionalDocuments [Posix.ws]]),
     Rejected Posix.EACCES).
Proof.
  apply (@initializeWorkspace_hook_fails
           Posix.Path Posix.Errno Posix.Document Posix.Store Posix.race
           (Posix.services (Posix.readdirOn Posix.diskA) 2 [".lang"])
           (Posix.methodsWith (fun _ h => ((h, [["lib"]]), Rejected Posix.EACCES)))
           [Posix.ws] []
           [[["ws"; "a.lang"]; ["ws"; "sub"; "c.lang"]]]
           [["ws"; "a.lang"]; ["ws"; "sub"; "c.lang"]] [["lib"]]
           [["ws"; "a.lang"]; ["ws"; "sub"; "c.lang"]]
           [["ws"; "a.lang"]; ["ws"; "sub"; "c.lang"]]
           (Rejected Posix.EACCES)).
  - constructor; [reflexivity | constructor].
  - apply DefaultWorkspaceManager.Created_cons with (h1 := [["ws"; "a.lang"]]);
      [reflexivity |].
    apply DefaultWorkspaceManager.Created_cons
      with (h1 := [["ws"; "a.lang"]; ["ws"; "sub"; "c.lang"]]); [reflexivity |].
    apply DefaultWorkspaceManager.Created_nil.
  - reflexivity.
  - discriminate.
Defined.

Lemma initializeWorkspace_never_settles_witness :
  Posix.initializeWorkspace Posix.bottomless 3 [".lang"] [Posix.ws]
  = (mkWorld [] (map Call_traverse (map Posix.URI_parse ["file:///ws"])), Pending).
Proof.
  apply (@initializeWorkspace_never_settles
           Posix.Path Posix.Errno Posix.Document Posix.Store Posix.race
           (Posix.services Posix.bottomless 3 [".lang"])
           (@DefaultWorkspaceManager.methods
              Posix.Path Posix.Errno Posix.Document Posix.Store
              Posix.URI_parse Posix.extname)
           [Posix.ws] [] Posix.ws).
  - now left.
  - reflexivity.
  - intros wf' e [<- | []]. vm_compute. discriminate.
Defined.

Lemma initializeWorkspace_on_trees_witness :
  exists w',
    DefaultWorkspaceManager.initializeWorkspace
      Posix.race (Posix.services (Posix.readdirOn Posix.diskB) 3 [".lang"])
      (Posix.methodsWith (fun _ h => ((h, [["lib"]]), Resolved tt)))
      [Posix.ws1; Posix.ws2] (mkWorld [] [])
    = (w', snd (build Posix.builder
                      ([["ws1"; "x.lang"]; ["ws1"; "src"; "y.lang"];
                        ["ws1"; "src"; "deep"; "z.lang"]; ["ws1"; "w.lang"];
                        ["ws2"; "v.lang"]] ++ [["lib"]])
                      [["ws1"; "x.lang"]; ["ws1"; "src"; "y.lang"];
                       ["ws1"; "src"; "deep"; "z.lang"]; ["ws1"; "w.lang"];
                       ["ws2"; "v.lang"]])) /\
    DefaultWorkspaceManager.buildCalls (calls w')
    = [[["ws1"; "x.lang"]; ["ws1"; "src"; "y.lang"];
        ["ws1"; "src"; "deep"; "z.lang"]; ["ws1"; "w.lang"];
        ["ws2"; "v.lang"]] ++ [["lib"]]].
Proof.
  apply (@initializeWorkspace_on_trees
           Posix.Path Posix.Errno Posix.Document Posix.Store
           Posix.resolvePath (Posix.readdirOn Posix.diskB) Posix.fs_readFile
           Posix.race (Posix.registry [".lang"]) Posix.store Posix.builder 3
           (Posix.methodsWith (fun _ h => ((h, [["lib"]]), Resolved tt)))
           [Posix.ws1; Posix.ws2]
           [Posix.contentB; [File "v.lang"; Special "pipe" Fifo]]
           [])
    with (h1 := [["ws1"; "x.lang"]; ["ws1"; "src"; "y.lang"];
                 ["ws1"; "src"; "deep"; "z.lang"]; ["ws1"; "w.lang"];
                 ["ws2"; "v.lang"]]).
  - constructor; [split; [models | apply le_n] |].
    constructor; [split; [models | repeat constructor] | constructor].
  - vm_compute concat.
    repeat (eapply DefaultWorkspaceManager.Created_cons; [reflexivity |]).
    apply DefaultWorkspaceManager.Created_nil.
  - reflexivity.
Defined.
